(** * win32-displayconfig: the display topology join and its reconciliation

    A shallow embedding of [index.js]: the extractor that joins the raw
    path, mode and name arrays into logical display entries, the snapshot
    taken for restoration, the two-tier restore (exact apply or coarse
    toggle), the toggle executor and the change-notification cache.

    Asynchronous functions are functions of a module state that log every
    call made to the native addon; a promise that rejects is a [Rejected]
    completion.  The native addon, Node's base64 codec and the bodies of
    the subscribed listeners are not part of [index.js]: they are the
    variables of the section [Library]. *)

From Stdlib Require Import ZArith NArith Ascii String List Lia.
From stdpp Require Import base strings gmap list.

Local Open Scope Z_scope.

#[local] Set Warnings "-clear-no-such-hyp".

(** ** JavaScript values *)

(** The payloads the addon hands over and that [index.js] only passes on
    ([rotation], [scaling], [sourceMode], [targetVideoSignalInfo]) or tests
    for truthiness ([outputTechnology]). *)
#[warnings="-register-all"]
Inductive JsValue : Type :=
| JsUndefined
| JsNull
| JsBool (b : bool)
| JsNumber (z : Z)
| JsString (s : string)
| JsObject (fields : list (string * JsValue)).

(** [ToBoolean]: what [&&] and [?:] test. *)
Definition truthy (v : JsValue) : bool :=
  match v with
  | JsUndefined | JsNull => false
  | JsBool b => b
  | JsNumber z => negb (z =? 0)
  | JsString s => negb (String.length s =? 0)%nat
  | JsObject _ => true
  end.

(** [ToInt32], applied by [&] to both operands. *)
Definition ToInt32 (z : Z) : Z := (z + 2 ^ 31) mod 2 ^ 32 - 2 ^ 31.

(** [Number(b)] for a boolean operand of [&]. *)
Definition bool_to_number (b : bool) : Z := if b then 1 else 0.

(** A Node [Buffer]. *)
Definition Buffer : Type := list Byte.byte.

(** [arr[idx]] for an index that may be absent, negative or past the end:
    [undefined] in all those cases, never an exception. *)
Definition array_get {A : Type} (arr : list A) (idx : option Z) : option A :=
  match idx with
  | None => None
  | Some i =>
    if (i <? 0) || (Z.of_nat (length arr) <=? i) then None
    else arr !! Z.to_nat i
  end.

(** ** Raw records returned by the native query *)

Module Luid.
Record t : Type := { LowPart : Z; HighPart : Z }.
End Luid.

Module SourceInfo.
Record t : Type := {
  adapterId : Luid.t;
  id : Z;
  modeInfoIdx : option Z
}.
End SourceInfo.

Module TargetInfo.
Record t : Type := {
  adapterId : Luid.t;
  id : Z;
  outputTechnology : JsValue;
  rotation : JsValue;
  scaling : JsValue;
  modeInfoIdx : option Z
}.
End TargetInfo.

Module PathInfo.
Record t : Type := {
  flags : Z;
  sourceInfo : SourceInfo.t;
  targetInfo : TargetInfo.t
}.
End PathInfo.

(** The discriminator of a mode record: the strings [source] and [target],
    [other] standing for any other value. *)
Inductive InfoType : Type := source | target | other.

Definition InfoType_eqb (a b : InfoType) : bool :=
  match a, b with
  | source, source | target, target | other, other => true
  | _, _ => false
  end.

Module ModeInfo.
Inductive t : Type :=
| Source (sourceMode : JsValue)
| Target (targetVideoSignalInfo : JsValue)
| Other.

Definition infoType (m : t) : InfoType :=
  match m with
  | Source _ => source
  | Target _ => target
  | Other => other
  end.

(** [m.sourceMode] *)
Definition sourceMode (m : t) : JsValue :=
  match m with
  | Source sm => sm
  | _ => JsUndefined
  end.

(** [m.targetMode.targetVideoSignalInfo], read only under
    [infoType === target]. *)
Definition targetVideoSignalInfo (m : t) : JsValue :=
  match m with
  | Target vsi => vsi
  | _ => JsUndefined
  end.
End ModeInfo.

Module Name.
Record t : Type := {
  adapterId : Luid.t;
  id : Z;
  outputTechnology : JsValue;
  monitorFriendlyDeviceName : string;
  monitorDevicePath : string
}.
End Name.

(** An element [{ value, buffer }] of [pathArray] and of [modeArray]. *)
Record Raw (A : Type) : Type := { value : A; buffer : Buffer }.
Arguments value {A} _.
Arguments buffer {A} _.

Module DisplayConfig.
Record t : Type := {
  pathArray : list (Raw PathInfo.t);
  modeArray : list (Raw ModeInfo.t);
  nameArray : list Name.t
}.
End DisplayConfig.

(** ** Logical display entries *)

Module ConfigId.
Record t : Type := { adapterId : Luid.t; id : Z }.
End ConfigId.

Module Entry.
Record t : Type := {
  displayName : string;
  devicePath : string;
  sourceConfigId : ConfigId.t;
  targetConfigId : ConfigId.t;
  inUse : bool;
  outputTechnology : JsValue;
  rotation : JsValue;
  scaling : JsValue;
  sourceMode : JsValue;
  pathBuffer : Buffer;
  sourceModeBuffer : Buffer;
  targetVideoSignalInfo : option JsValue;
  targetModeBuffer : option Buffer
}.

(** [output.targetVideoSignalInfo = v; output.targetModeBuffer = b] *)
Definition set_target (output : t) (v : JsValue) (b : Buffer) : t :=
  {| displayName := displayName output;
     devicePath := devicePath output;
     sourceConfigId := sourceConfigId output;
     targetConfigId := targetConfigId output;
     inUse := inUse output;
     outputTechnology := outputTechnology output;
     rotation := rotation output;
     scaling := scaling output;
     sourceMode := sourceMode output;
     pathBuffer := pathBuffer output;
     sourceModeBuffer := sourceModeBuffer output;
     targetVideoSignalInfo := Some v;
     targetModeBuffer := Some b |}.
End Entry.

(** ** The extractor: the body of the loop of [extractDisplayConfig] *)

(** The predicate handed to [config.nameArray.find] for a path whose target
    is [(adapterId, id)] with the given [outputTechnology]. *)
Definition name_matches (adapterId : Luid.t) (id : Z) (outputTechnology : JsValue)
    (n : Name.t) : bool :=
  (Luid.LowPart (Name.adapterId n) =? Luid.LowPart adapterId)
  && (Luid.HighPart (Name.adapterId n) =? Luid.HighPart adapterId)
  && (Name.id n =? id)
  && truthy (Name.outputTechnology n)
  && truthy outputTechnology
  && (0 <? String.length (Name.monitorDevicePath n))%nat.

(** One iteration: [None] is a [continue], [Some output] is
    [ret.push(output)]. *)
Definition extractDisplayConfig_path (config : DisplayConfig.t)
    (entry : Raw PathInfo.t) : option Entry.t :=
  let pathBuffer := buffer entry in
  let inUse :=
    if negb (Z.land (ToInt32 (PathInfo.flags (value entry)))
                    (ToInt32 (bool_to_number (1 =? 1))) =? 0)
    then true else false in
  let sourceInfo := PathInfo.sourceInfo (value entry) in
  let targetInfo := PathInfo.targetInfo (value entry) in
  let sourceModeIdx := SourceInfo.modeInfoIdx sourceInfo in
  let adapterId := TargetInfo.adapterId targetInfo in
  let id := TargetInfo.id targetInfo in
  let outputTechnology := TargetInfo.outputTechnology targetInfo in
  let targetModeIdx := TargetInfo.modeInfoIdx targetInfo in
  let sourceConfigId :=
    {| ConfigId.adapterId := SourceInfo.adapterId sourceInfo;
       ConfigId.id := SourceInfo.id sourceInfo |} in
  let targetConfigId :=
    {| ConfigId.adapterId := adapterId; ConfigId.id := id |} in
  match find (name_matches adapterId id outputTechnology)
             (DisplayConfig.nameArray config) with
  | None => None
  | Some displayNameEntry =>
    let sourceMode := array_get (DisplayConfig.modeArray config) sourceModeIdx in
    let targetMode := array_get (DisplayConfig.modeArray config) targetModeIdx in
    match sourceMode with
    | None => None
    | Some sourceMode =>
      let inUse := match targetMode with None => false | Some _ => inUse end in
      let sourceModeValue := value sourceMode in
      if negb (InfoType_eqb (ModeInfo.infoType sourceModeValue) source)
      then None
      else
        let output :=
          {| Entry.displayName := Name.monitorFriendlyDeviceName displayNameEntry;
             Entry.devicePath := Name.monitorDevicePath displayNameEntry;
             Entry.sourceConfigId := sourceConfigId;
             Entry.targetConfigId := targetConfigId;
             Entry.inUse := inUse;
             Entry.outputTechnology := outputTechnology;
             Entry.rotation := TargetInfo.rotation targetInfo;
             Entry.scaling := TargetInfo.scaling targetInfo;
             Entry.sourceMode := ModeInfo.sourceMode sourceModeValue;
             Entry.pathBuffer := pathBuffer;
             Entry.sourceModeBuffer := buffer sourceMode;
             Entry.targetVideoSignalInfo := None;
             Entry.targetModeBuffer := None |} in
        let output :=
          match targetMode with
          | Some targetMode =>
            let targetModeValue := value targetMode in
            if InfoType_eqb (ModeInfo.infoType targetModeValue) target
            then Entry.set_target output
                   (ModeInfo.targetVideoSignalInfo targetModeValue)
                   (buffer targetMode)
            else output
          | None => output
          end in
        Some output
    end
  end.

(** The whole loop over [config.pathArray], [ret] starting empty. *)
Definition extractDisplayConfig_loop (config : DisplayConfig.t) : list Entry.t :=
  fold_left
    (fun ret entry =>
       match extractDisplayConfig_path config entry with
       | None => ret
       | Some output => ret ++ [output]
       end)
    (DisplayConfig.pathArray config) [].

(** ** Snapshots, requests and the arguments of the native calls *)

(** An element of the array returned by [displayConfigForRestoration] and
    of [args.config] of [restoreDisplayConfig].  The three buffers are
    base64 strings; a request item that only names a device path has none
    of them. *)
Module RestorationRecord.
Record t : Type := {
  devicePath : string;
  pathBuffer : option string;
  sourceModeBuffer : option string;
  targetModeBuffer : option string
}.
End RestorationRecord.

Module RestoreArgs.
Record t : Type := {
  config : list RestorationRecord.t;
  persistent : bool
}.
End RestoreArgs.

(** An element of [coercedState], the array given to the native restore. *)
Module CoercedEntry.
Record t : Type := {
  sourceConfigId : ConfigId.t;
  targetConfigId : ConfigId.t;
  pathBuffer : Buffer;
  sourceModeBuffer : Buffer;
  targetModeBuffer : Buffer
}.
End CoercedEntry.

(** The argument of [toggleEnabledDisplays]; [None] is a value for which
    [Array.isArray] is false. *)
Module ToggleArgs.
Record t : Type := {
  persistent : bool;
  enable : option (list string);
  disable : option (list string)
}.
End ToggleArgs.

(** The object given to the native toggle. *)
Module NativeToggleArgs.
Record t : Type := {
  enable : list ConfigId.t;
  disable : list ConfigId.t;
  persistent : bool
}.
End NativeToggleArgs.

(** ** The native addon *)

Inductive NativeCall : Type :=
| Call_queryDisplayConfig
| Call_restoreDisplayConfig (configs : list CoercedEntry.t) (persistent : bool)
| Call_toggleEnabledDisplays (args : NativeToggleArgs.t).

(** What a native query does with its callback [(err, result)], or that it
    returned a falsy value without running. *)
Inductive QueryReply : Type :=
| QueryFailed (err : Z)
| QuerySucceeded (result : DisplayConfig.t)
| QueryNotRan.

(** What a native restore or toggle does with its callback
    [(_, errorCode)]. *)
Inductive StatusReply : Type :=
| StatusReported (errorCode : Z)
| StatusNotRan.

(** The addon answers each call knowing the calls made before it, so that
    two queries of one operation may see different topologies. *)
Module Addon.
Record t : Type := {
  win32_queryDisplayConfig : list NativeCall -> QueryReply;
  win32_restoreDisplayConfig :
    list NativeCall -> list CoercedEntry.t -> bool -> StatusReply;
  win32_toggleEnabledDisplays :
    list NativeCall -> NativeToggleArgs.t -> StatusReply
}.
End Addon.

(** ** Errors, listeners and the module state *)

Inductive JsError : Type :=
| Win32Error (code : Z)
| TypeError
| Thrown (what : JsValue).

Inductive Completion (A : Type) : Type :=
| Resolved (a : A)
| Rejected (e : JsError).
Arguments Resolved {A} a.
Arguments Rejected {A} e.

(** A listener is known by its identity; the members of the JavaScript
    [Set] of listeners are kept in insertion order. *)
Definition Listener : Type := nat.

(** The arguments [(err, config)] of one listener invocation:
    [callback(null, config)] or [callback(e)]. *)
Module CallbackArgs.
Record t : Type := {
  err : option JsError;
  config : option (list Entry.t)
}.
End CallbackArgs.

(** The module-level variables of [index.js] and the two logs: the calls
    made to the addon and the listener invocations, oldest first. *)
Module State.
Record t : Type := {
  calls : list NativeCall;
  currentDisplayConfig : option (list Entry.t);
  displayChangeCallbacks : list Listener;
  notified : list (Listener * CallbackArgs.t)
}.

Definition log_call (c : NativeCall) (s : t) : t :=
  {| calls := calls s ++ [c];
     currentDisplayConfig := currentDisplayConfig s;
     displayChangeCallbacks := displayChangeCallbacks s;
     notified := notified s |}.

Definition log_notified (l : Listener) (a : CallbackArgs.t) (s : t) : t :=
  {| calls := calls s;
     currentDisplayConfig := currentDisplayConfig s;
     displayChangeCallbacks := displayChangeCallbacks s;
     notified := notified s ++ [(l, a)] |}.

Definition set_currentDisplayConfig (c : list Entry.t) (s : t) : t :=
  {| calls := calls s;
     currentDisplayConfig := Some c;
     displayChangeCallbacks := displayChangeCallbacks s;
     notified := notified s |}.
End State.

(** ** Asynchronous computations *)

Definition Async (A : Type) : Type := State.t -> Completion A * State.t.

#[export] Instance Async_ret : MRet Async :=
  fun A (a : A) s => (Resolved a, s).

#[export] Instance Async_bind : MBind Async :=
  fun A B (k : A -> Async B) (m : Async A) s =>
    match m s with
    | (Resolved a, s') => k a s'
    | (Rejected e, s') => (Rejected e, s')
    end.

Definition throw {A : Type} (e : JsError) : Async A :=
  fun s => (Rejected e, s).

(** [try { body } catch (e) { handler }] *)
Definition try_catch {A : Type} (body : Async A) (handler : JsError -> Async A)
  : Async A :=
  fun s =>
    match body s with
    | (Resolved a, s') => (Resolved a, s')
    | (Rejected e, s') => handler e s'
    end.

(** The promise made from a status callback: resolved on [0] and when the
    addon did not run, rejected with the error code otherwise. *)
Definition status_completion (r : StatusReply) : Completion unit :=
  match r with
  | StatusReported errorCode =>
    if errorCode =? 0 then Resolved tt else Rejected (Win32Error errorCode)
  | StatusNotRan => Resolved tt
  end.

(** ** The functions of [index.js] *)

(** [setSubtract(left, right)]: the members of [left] that [right] does not
    have, as an array. *)
Definition setSubtract (left right : gset string) : list string :=
  elements (filter (fun entry => entry ∉ right) left).

(** [devicePathLookupForEnabledDisplayConfig(conf)]: the object [ret] used
    as a map from device path to entry.  A device path is a device
    interface path of a monitor (it starts with a backslash), never the
    name of a property that an empty object inherits. *)
Definition devicePathLookupForEnabledDisplayConfig (conf : list Entry.t)
  : gmap string Entry.t :=
  fold_left
    (fun (ret : gmap string Entry.t) entry =>
       if Entry.inUse entry && bool_decide (Entry.targetModeBuffer entry = None)
       then ret
       else if bool_decide (ret !! Entry.devicePath entry ≠ None)
       then ret
       else <[Entry.devicePath entry := entry]> ret)
    conf ∅.

(** The two passes of the fallback of [restoreDisplayConfig]: one pass
    pushes onto [out] the names that are live and not yet [seen]. *)
Definition toggle_pass (givenAsSet : gset string) (names : list string)
    (seen : gset string) : gset string * list string :=
  fold_left
    (fun '(seen, out) devicePathName =>
       if negb (bool_decide (devicePathName ∈ seen))
          && bool_decide (devicePathName ∈ givenAsSet)
       then ({[devicePathName]} ∪ seen, out ++ [devicePathName])
       else (seen, out))
    names (seen, []).

(** The loop of [toggleEnabledDisplays] over the live entries, with its
    two arrays [enable] and [disable]. *)
Definition toggle_ids (enablePaths disablePaths : option (list string))
    (displayConfig : list Entry.t) : list ConfigId.t * list ConfigId.t :=
  fold_left
    (fun '(enable, disable) entry =>
       let devicePath := Entry.devicePath entry in
       let targetConfigId := Entry.targetConfigId entry in
       let enable :=
         match enablePaths with
         | Some enablePaths =>
           if bool_decide (devicePath ∈ enablePaths)
           then enable ++ [targetConfigId] else enable
         | None => enable
         end in
       let disable :=
         match disablePaths with
         | Some disablePaths =>
           if bool_decide (devicePath ∈ disablePaths)
           then disable ++ [targetConfigId] else disable
         | None => disable
         end in
       (enable, disable))
    displayConfig ([], []).

Section Library.

(** The native addon loaded through [bindings]. *)
Variable addon : Addon.t.

(** [buf.toString(base64)] and [Buffer.from(s, base64)] of Node. *)
Variable base64_encode : Buffer -> string.
Variable base64_decode : string -> Buffer.

(** What a listener does when invoked: it returns ([None]) or throws. *)
Variable listener_body : Listener -> CallbackArgs.t -> option JsError.

Definition queryDisplayConfig : Async (option DisplayConfig.t) :=
  fun s =>
    let s' := State.log_call Call_queryDisplayConfig s in
    match Addon.win32_queryDisplayConfig addon (State.calls s) with
    | QueryFailed err => (Rejected (Win32Error err), s')
    | QuerySucceeded result => (Resolved (Some result), s')
    | QueryNotRan => (Resolved None, s')
    end.

(** Reading [config.pathArray] of an [undefined] config is a
    [TypeError]. *)
Definition extractDisplayConfig : Async (list Entry.t) :=
  config ← queryDisplayConfig;
  match config with
  | None => throw TypeError
  | Some config => mret (extractDisplayConfig_loop config)
  end.

Definition win32_toggleEnabledDisplays (args : NativeToggleArgs.t)
  : Async unit :=
  fun s =>
    (status_completion
       (Addon.win32_toggleEnabledDisplays addon (State.calls s) args),
     State.log_call (Call_toggleEnabledDisplays args) s).

Definition toggleEnabledDisplays (args : ToggleArgs.t) : Async unit :=
  let persistent := ToggleArgs.persistent args in
  let enablePaths := ToggleArgs.enable args in
  let disablePaths := ToggleArgs.disable args in
  displayConfig ← extractDisplayConfig;
  let '(enable, disable) := toggle_ids enablePaths disablePaths displayConfig in
  win32_toggleEnabledDisplays
    {| NativeToggleArgs.enable := enable;
       NativeToggleArgs.disable := disable;
       NativeToggleArgs.persistent := persistent |}.

Definition displayConfigForRestoration_loop (currentConfig : list Entry.t)
  : list RestorationRecord.t :=
  fold_left
    (fun ret entry =>
       if negb (Entry.inUse entry)
          || bool_decide (Entry.targetModeBuffer entry = None)
       then ret
       else
         ret ++
         [{| RestorationRecord.devicePath := Entry.devicePath entry;
             RestorationRecord.pathBuffer :=
               Some (base64_encode (Entry.pathBuffer entry));
             RestorationRecord.sourceModeBuffer :=
               Some (base64_encode (Entry.sourceModeBuffer entry));
             RestorationRecord.targetModeBuffer :=
               base64_encode <$> Entry.targetModeBuffer entry |}])
    currentConfig [].

Definition displayConfigForRestoration : Async (list RestorationRecord.t) :=
  currentConfig ← extractDisplayConfig;
  mret (displayConfigForRestoration_loop currentConfig).

Definition win32_restoreDisplayConfig (configs : list CoercedEntry.t)
    (persistent : bool) : Async unit :=
  fun s =>
    (status_completion
       (Addon.win32_restoreDisplayConfig addon (State.calls s) configs persistent),
     State.log_call (Call_restoreDisplayConfig configs persistent) s).

(** [Buffer.from(x, base64)]: a [TypeError] when [x] is [undefined]. *)
Definition Buffer_from_base64 (x : option string) : Completion Buffer :=
  match x with
  | Some s => Resolved (base64_decode s)
  | None => Rejected TypeError
  end.

(** One iteration of the loop that builds [coercedState]: the array after
    the iteration, or the exception that leaves the loop. *)
Definition coerce_step (pathLookup : gmap string Entry.t)
    (coercedState : list CoercedEntry.t) (entry : RestorationRecord.t)
  : Completion (list CoercedEntry.t) :=
  if bool_decide (RestorationRecord.targetModeBuffer entry = None)
  then Resolved coercedState
  else
    match pathLookup !! RestorationRecord.devicePath entry with
    | None => Resolved coercedState
    | Some currentConfigEntry =>
      match Buffer_from_base64 (RestorationRecord.pathBuffer entry) with
      | Rejected e => Rejected e
      | Resolved pathBuffer =>
        match Buffer_from_base64 (RestorationRecord.sourceModeBuffer entry) with
        | Rejected e => Rejected e
        | Resolved sourceModeBuffer =>
          match Buffer_from_base64 (RestorationRecord.targetModeBuffer entry) with
          | Rejected e => Rejected e
          | Resolved targetModeBuffer =>
            Resolved
              (coercedState ++
               [{| CoercedEntry.sourceConfigId :=
                     Entry.sourceConfigId currentConfigEntry;
                   CoercedEntry.targetConfigId :=
                     Entry.targetConfigId currentConfigEntry;
                   CoercedEntry.pathBuffer := pathBuffer;
                   CoercedEntry.sourceModeBuffer := sourceModeBuffer;
                   CoercedEntry.targetModeBuffer := targetModeBuffer |}])
          end
        end
      end
    end.

Definition coerce_loop (pathLookup : gmap string Entry.t)
    (config : list RestorationRecord.t) : Completion (list CoercedEntry.t) :=
  fold_left
    (fun acc entry =>
       match acc with
       | Resolved coercedState => coerce_step pathLookup coercedState entry
       | Rejected e => Rejected e
       end)
    config (Resolved []).

Definition restoreDisplayConfig (args : RestoreArgs.t) : Async unit :=
  let devicePathNames :=
    RestorationRecord.devicePath
      <$> filter (fun r => RestorationRecord.targetModeBuffer r ≠ None)
                 (RestoreArgs.config args) in
  currentConfig ← extractDisplayConfig;
  let givenAsSet : gset string :=
    list_to_set (Entry.devicePath <$> currentConfig) in
  let expectedEnabledAsSet : gset string := list_to_set devicePathNames in
  let missingEnabled := setSubtract expectedEnabledAsSet givenAsSet in
  if (length missingEnabled =? 0)%nat then
    let pathLookup := devicePathLookupForEnabledDisplayConfig currentConfig in
    match coerce_loop pathLookup (RestoreArgs.config args) with
    | Rejected e => throw e
    | Resolved coercedState =>
      win32_restoreDisplayConfig coercedState (RestoreArgs.persistent args)
    end
  else
    let notInUse :=
      RestorationRecord.devicePath
        <$> filter (fun r => RestorationRecord.targetModeBuffer r = None)
                   (RestoreArgs.config args) in
    let '(seen, enable) := toggle_pass givenAsSet devicePathNames ∅ in
    let '(seen, disable) := toggle_pass givenAsSet notInUse seen in
    toggleEnabledDisplays
      {| ToggleArgs.persistent := RestoreArgs.persistent args;
         ToggleArgs.enable := Some enable;
         ToggleArgs.disable := Some disable |}.

(** [for (const callback of callbacks) callback(...args)]: every
    invocation is logged; the first listener that throws ends the loop. *)
Fixpoint notify (callbacks : list Listener) (a : CallbackArgs.t)
  : Async unit :=
  match callbacks with
  | [] => mret tt
  | callback :: rest =>
    fun s =>
      let s' := State.log_notified callback a s in
      match listener_body callback a with
      | None => notify rest a s'
      | Some e => (Rejected e, s')
      end
  end.

(** The assignment to the module variable [currentDisplayConfig]. *)
Definition assign_currentDisplayConfig (config : list Entry.t) : Async unit :=
  fun s => (Resolved tt, State.set_currentDisplayConfig config s).

(** The loop over [Array.from(displayChangeCallbacks)], the arguments
    being read from the module state when the loop starts. *)
Definition notify_callbacks (args : State.t -> CallbackArgs.t) : Async unit :=
  fun s => notify (State.displayChangeCallbacks s) (args s) s.

Definition updateDisplayStateAndNotifyCallbacks : Async unit :=
  try_catch
    (config ← extractDisplayConfig;
     _ ← assign_currentDisplayConfig config;
     notify_callbacks
       (fun s => {| CallbackArgs.err := None;
                    CallbackArgs.config := State.currentDisplayConfig s |}))
    (fun e =>
       notify_callbacks
         (fun _ => {| CallbackArgs.err := Some e;
                      CallbackArgs.config := None |})).

End Library.

(** ** The subscription functions of [index.js] *)

(** The two calls that register and deregister the module with the change
    notification of the addon. *)
Inductive ListenCall : Type :=
| Call_listenForDisplayChanges
| Call_stopListeningForDisplayChanges.

(** The module state together with the log of the registration calls,
    oldest first, and the promise [currentDisplayConfigPromise], known by
    the way it settled. *)
Module Session.
Record t : Type := {
  state : State.t;
  listening : list ListenCall;
  currentDisplayConfigPromise : Completion unit
}.

Definition with_state (s : State.t) (session : t) : t :=
  {| state := s;
     listening := listening session;
     currentDisplayConfigPromise := currentDisplayConfigPromise session |}.

Definition log_listening (c : ListenCall) (session : t) : t :=
  {| state := state session;
     listening := listening session ++ [c];
     currentDisplayConfigPromise := currentDisplayConfigPromise session |}.
End Session.

(** [set.add(l)] and [set.delete(l)] on a JavaScript [Set] kept in
    insertion order: a member that is added again keeps its place. *)
Definition Set_add (l : Listener) (members : list Listener) : list Listener :=
  if bool_decide (l ∈ members) then members else members ++ [l].

Definition Set_delete (l : Listener) (members : list Listener) : list Listener :=
  filter (fun m => m ≠ l) members.

(** The module state with [displayChangeCallbacks] replaced. *)
Definition with_callbacks (members : list Listener) (s : State.t) : State.t :=
  {| State.calls := State.calls s;
     State.currentDisplayConfig := State.currentDisplayConfig s;
     State.displayChangeCallbacks := members;
     State.notified := State.notified s |}.

Section Subscriptions.

Variable addon : Addon.t.
Variable listener_body : Listener -> CallbackArgs.t -> option JsError.

Definition setupListenForDisplayChanges (session : Session.t) : Session.t :=
  Session.log_listening Call_listenForDisplayChanges session.

(** A synchronous function: [Rejected e] is the exception [e] that the
    listener threw and that reaches the caller. *)
Definition addDisplayChangeListener (listener : Listener) (session : Session.t)
  : Completion unit * Session.t :=
  let session :=
    if (length (State.displayChangeCallbacks (Session.state session)) =? 0)%nat
    then setupListenForDisplayChanges session
    else session in
  let s :=
    with_callbacks
      (Set_add listener (State.displayChangeCallbacks (Session.state session)))
      (Session.state session) in
  match State.currentDisplayConfig s with
  | Some _ =>
    let a := {| CallbackArgs.err := None;
                CallbackArgs.config := State.currentDisplayConfig s |} in
    (match listener_body listener a with
     | None => Resolved tt
     | Some e => Rejected e
     end,
     Session.with_state (State.log_notified listener a s) session)
  | None => (Resolved tt, Session.with_state s session)
  end.

Definition removeDisplayChangeListener (listener : Listener)
    (session : Session.t) : Session.t :=
  let s :=
    with_callbacks
      (Set_delete listener
                  (State.displayChangeCallbacks (Session.state session)))
      (Session.state session) in
  let session := Session.with_state s session in
  if (length (State.displayChangeCallbacks s) =? 0)%nat
  then Session.log_listening Call_stopListeningForDisplayChanges session
  else session.

(** The callback given to [addon.win32_listenForDisplayChanges]: on a pulse
    without error the promise becomes
    [currentDisplayConfigPromise.then(() => update())].  A promise that was
    rejected stays rejected and its handler is not run; the update of a
    fulfilled one is run here to its end, on the module state that it
    finds. *)
Definition on_display_change (err : option Z) (session : Session.t)
  : Session.t :=
  match err with
  | Some _ => session
  | None =>
    match Session.currentDisplayConfigPromise session with
    | Rejected _ => session
    | Resolved _ =>
      let '(settled, s) :=
        updateDisplayStateAndNotifyCallbacks addon listener_body
          (Session.state session) in
      {| Session.state := s;
         Session.listening := Session.listening session;
         Session.currentDisplayConfigPromise := settled |}
    end
  end.

(** What happens to the module, one event after the other: a caller adds
    or removes a listener, or the addon reports a change. *)
Inductive Event : Type :=
| AddListener (listener : Listener)
| RemoveListener (listener : Listener)
| DisplayChange (err : option Z).

Definition handle (ev : Event) (session : Session.t) : Session.t :=
  match ev with
  | AddListener listener => (addDisplayChangeListener listener session).2
  | RemoveListener listener => removeDisplayChangeListener listener session
  | DisplayChange err => on_display_change err session
  end.

Definition handle_all (evs : list Event) (session : Session.t) : Session.t :=
  fold_left (fun session ev => handle ev session) evs session.

End Subscriptions.

(** ** A reference addon and codec for the examples *)

(** RFC 4648 base64 with padding, what Node writes; the decoder skips the
    characters outside the alphabet and stops at the padding. *)
Module Base64.
Definition alphabet : string :=
  "ABCDEFGHIJKLMNOPQRSTUVWXYZabcdefghijklmnopqrstuvwxyz0123456789+/"%string.

Definition digit (n : N) : Ascii.ascii :=
  default "="%char (String.get (N.to_nat n) alphabet).

Fixpoint index_of (c : Ascii.ascii) (s : string) : option N :=
  match s with
  | EmptyString => None
  | String d rest =>
    if Ascii.eqb c d then Some 0%N else N.succ <$> index_of c rest
  end.

Definition to_byte (n : N) : Byte.byte :=
  default Byte.x00 (Byte.of_N (n mod 256)).

Fixpoint encode (bs : Buffer) : string :=
  match bs with
  | [] => EmptyString
  | [a] =>
    let n := (Byte.to_N a * 65536)%N in
    String (digit (n / 262144)) (String (digit (n / 4096 mod 64)) "==")
  | [a; b] =>
    let n := (Byte.to_N a * 65536 + Byte.to_N b * 256)%N in
    String (digit (n / 262144)) (String (digit (n / 4096 mod 64))
      (String (digit (n / 64 mod 64)) "="))
  | a :: b :: c :: rest =>
    let n := (Byte.to_N a * 65536 + Byte.to_N b * 256 + Byte.to_N c)%N in
    String (digit (n / 262144)) (String (digit (n / 4096 mod 64))
      (String (digit (n / 64 mod 64)) (String (digit (n mod 64))
        (encode rest))))
  end.

Fixpoint sextets (s : string) : list N :=
  match s with
  | EmptyString => []
  | String c rest =>
    match index_of c alphabet with
    | Some v => v :: sextets rest
    | None => if Ascii.eqb c "="%char then [] else sextets rest
    end
  end.

Fixpoint pack (l : list N) : Buffer :=
  match l with
  | a :: b :: c :: d :: rest =>
    let n := (((a * 64 + b) * 64 + c) * 64 + d)%N in
    to_byte (n / 65536) :: to_byte (n / 256) :: to_byte n :: pack rest
  | [a; b; c] =>
    let n := ((a * 64 + b) * 64 + c)%N in
    [to_byte (n / 1024); to_byte (n / 4)]
  | [a; b] => [to_byte ((a * 64 + b) / 16)]
  | _ => []
  end.

Definition decode (s : string) : Buffer := pack (sextets s).
End Base64.

Module Sample.
(** An addon whose every query reports [config] and whose restore and
    toggle report success. *)
Definition addon (config : DisplayConfig.t) : Addon.t :=
  {| Addon.win32_queryDisplayConfig := fun _ => QuerySucceeded config;
     Addon.win32_restoreDisplayConfig := fun _ _ _ => StatusReported 0;
     Addon.win32_toggleEnabledDisplays := fun _ _ => StatusReported 0 |}.

(** An addon whose queries fail with the given code. *)
Definition failing_addon (code : Z) : Addon.t :=
  {| Addon.win32_queryDisplayConfig := fun _ => QueryFailed code;
     Addon.win32_restoreDisplayConfig := fun _ _ _ => StatusReported 0;
     Addon.win32_toggleEnabledDisplays := fun _ _ => StatusReported 0 |}.

Definition quiet_listener : Listener -> CallbackArgs.t -> option JsError :=
  fun _ _ => None.

Definition luid : Luid.t := {| Luid.LowPart := 51966; Luid.HighPart := 0 |}.

(** A path from source [src] to target [tgt] of the one adapter. *)
Definition path (flags src tgt : Z) (technology : JsValue)
    (sourceIdx targetIdx : option Z) (buf : Buffer) : Raw PathInfo.t :=
  {| value :=
       {| PathInfo.flags := flags;
          PathInfo.sourceInfo :=
            {| SourceInfo.adapterId := luid; SourceInfo.id := src;
               SourceInfo.modeInfoIdx := sourceIdx |};
          PathInfo.targetInfo :=
            {| TargetInfo.adapterId := luid; TargetInfo.id := tgt;
               TargetInfo.outputTechnology := technology;
               TargetInfo.rotation := JsNumber 1;
               TargetInfo.scaling := JsNumber 1;
               TargetInfo.modeInfoIdx := targetIdx |} |};
     buffer := buf |}.

Definition name (tgt : Z) (technology : JsValue) (friendly devicePath : string)
  : Name.t :=
  {| Name.adapterId := luid; Name.id := tgt;
     Name.outputTechnology := technology;
     Name.monitorFriendlyDeviceName := friendly;
     Name.monitorDevicePath := devicePath |}.

Definition hdmi : JsValue := JsString "hdmi".
Definition dvi : JsValue := JsString "dvi".

Definition modes : list (Raw ModeInfo.t) :=
  [ {| value := ModeInfo.Source (JsString "1920x1080");
       buffer := [Byte.x01; Byte.x02] |};
    {| value := ModeInfo.Target (JsString "60Hz");
       buffer := [Byte.x03] |};
    {| value := ModeInfo.Source (JsString "2560x1440");
       buffer := [Byte.x04] |};
    {| value := ModeInfo.Target (JsString "144Hz");
       buffer := [Byte.x05; Byte.x06; Byte.x07] |} ].

(** Monitor A on target 10 and monitor B on target 11, both active with
    a source and a target mode. *)
Definition pathA : Raw PathInfo.t :=
  path 1 0 10 hdmi (Some 0) (Some 1) [Byte.x0a].
Definition pathB : Raw PathInfo.t :=
  path 1 1 11 hdmi (Some 2) (Some 3) [Byte.x0b].

(** Monitor A connected but off: no target mode, the active bit clear. *)
Definition pathA_off : Raw PathInfo.t :=
  path 0 0 10 hdmi (Some 0) (Some 4294967295) [Byte.x0a].

(** A path to target 12, which no name record describes. *)
Definition pathX : Raw PathInfo.t :=
  path 1 2 12 hdmi (Some 0) (Some 1) [Byte.x0c].

(** Monitor A with the invalid-index sentinel as source mode index, and
    with a source mode index that addresses a target mode. *)
Definition pathA_no_source : Raw PathInfo.t :=
  path 1 0 10 hdmi (Some 4294967295) (Some 1) [Byte.x0a].
Definition pathA_wrong_source : Raw PathInfo.t :=
  path 1 0 10 hdmi (Some 3) (Some 1) [Byte.x0a].

(** Monitor A flagged active with the sentinel as target mode index. *)
Definition pathA_no_target : Raw PathInfo.t :=
  path 1 0 10 hdmi (Some 0) (Some 4294967295) [Byte.x0a].

(** Monitor A flagged active with a target mode index that addresses a
    source mode. *)
Definition pathA_wrong_target : Raw PathInfo.t :=
  path 1 0 10 hdmi (Some 0) (Some 2) [Byte.x0a].

(** Monitor A with a falsy output technology. *)
Definition pathA_no_technology : Raw PathInfo.t :=
  path 1 0 10 (JsNumber 0) (Some 0) (Some 1) [Byte.x0a].

Definition names : list Name.t :=
  [ name 10 hdmi "Monitor A" "A"; name 11 hdmi "Monitor B" "B" ].

Definition live_A_B : DisplayConfig.t :=
  {| DisplayConfig.pathArray := [pathA; pathB];
     DisplayConfig.modeArray := modes;
     DisplayConfig.nameArray := names |}.

Definition live_of (paths : list (Raw PathInfo.t)) (names : list Name.t)
  : DisplayConfig.t :=
  {| DisplayConfig.pathArray := paths;
     DisplayConfig.modeArray := modes;
     DisplayConfig.nameArray := names |}.

(** The name record of monitor A reporting another technology than the
    path does. *)
Definition nameA_dvi : Name.t := name 10 dvi "Monitor A" "A".

Definition live_A : DisplayConfig.t :=
  {| DisplayConfig.pathArray := [pathA];
     DisplayConfig.modeArray := modes;
     DisplayConfig.nameArray := names |}.

Definition live_A_off : DisplayConfig.t :=
  {| DisplayConfig.pathArray := [pathA_off];
     DisplayConfig.modeArray := modes;
     DisplayConfig.nameArray := names |}.

(** The entry of monitor A: in use or not, with or without the fields of
    the target mode. *)
Definition entryA (inUse : bool) (targetMode : option (JsValue * Buffer))
  : Entry.t :=
  {| Entry.displayName := "Monitor A";
     Entry.devicePath := "A";
     Entry.sourceConfigId := {| ConfigId.adapterId := luid; ConfigId.id := 0 |};
     Entry.targetConfigId := {| ConfigId.adapterId := luid; ConfigId.id := 10 |};
     Entry.inUse := inUse;
     Entry.outputTechnology := hdmi;
     Entry.rotation := JsNumber 1;
     Entry.scaling := JsNumber 1;
     Entry.sourceMode := JsString "1920x1080";
     Entry.pathBuffer := [Byte.x0a];
     Entry.sourceModeBuffer := [Byte.x01; Byte.x02];
     Entry.targetVideoSignalInfo := fst <$> targetMode;
     Entry.targetModeBuffer := snd <$> targetMode |}.

Definition entryB : Entry.t :=
  {| Entry.displayName := "Monitor B";
     Entry.devicePath := "B";
     Entry.sourceConfigId := {| ConfigId.adapterId := luid; ConfigId.id := 1 |};
     Entry.targetConfigId := {| ConfigId.adapterId := luid; ConfigId.id := 11 |};
     Entry.inUse := true;
     Entry.outputTechnology := hdmi;
     Entry.rotation := JsNumber 1;
     Entry.scaling := JsNumber 1;
     Entry.sourceMode := JsString "2560x1440";
     Entry.pathBuffer := [Byte.x0b];
     Entry.sourceModeBuffer := [Byte.x04];
     Entry.targetVideoSignalInfo := Some (JsString "144Hz");
     Entry.targetModeBuffer := Some [Byte.x05; Byte.x06; Byte.x07] |}.



(** Two name records for target 10. *)
Definition names_twice : list Name.t :=
  [ name 11 hdmi "Monitor B" "B"; name 10 hdmi "First" "A1";
    name 10 dvi "Second" "A2" ].

(** The entry of path A under [names_twice]. *)
Definition entryA_first : Entry.t :=
  {| Entry.displayName := "First";
     Entry.devicePath := "A1";
     Entry.sourceConfigId := {| ConfigId.adapterId := luid; ConfigId.id := 0 |};
     Entry.targetConfigId := {| ConfigId.adapterId := luid; ConfigId.id := 10 |};
     Entry.inUse := true;
     Entry.outputTechnology := hdmi;
     Entry.rotation := JsNumber 1;
     Entry.scaling := JsNumber 1;
     Entry.sourceMode := JsString "1920x1080";
     Entry.pathBuffer := [Byte.x0a];
     Entry.sourceModeBuffer := [Byte.x01; Byte.x02];
     Entry.targetVideoSignalInfo := Some (JsString "60Hz");
     Entry.targetModeBuffer := Some [Byte.x03] |}.

(** A stored record for the device path [p] and a request that only
    names [p]. *)
Definition stored (p : string) : RestorationRecord.t :=
  {| RestorationRecord.devicePath := p;
     RestorationRecord.pathBuffer := Some "Cg=="%string;
     RestorationRecord.sourceModeBuffer := Some "AQI="%string;
     RestorationRecord.targetModeBuffer := Some "Aw=="%string |}.

Definition path_only (p : string) : RestorationRecord.t :=
  {| RestorationRecord.devicePath := p;
     RestorationRecord.pathBuffer := None;
     RestorationRecord.sourceModeBuffer := None;
     RestorationRecord.targetModeBuffer := None |}.

(** A listener that throws when it is handed a configuration. *)
Definition picky_listener (picky : Listener)
  : Listener -> CallbackArgs.t -> option JsError :=
  fun callback a =>
    if (callback =? picky)%nat
    then match CallbackArgs.config a with
         | Some _ => Some (Thrown (JsString "boom"))
         | None => None
         end
    else None.

(** Two listeners subscribed, monitor B cached. *)
Definition subscribed : State.t :=
  {| State.calls := [];
     State.currentDisplayConfig := Some [entryB];
     State.displayChangeCallbacks := [7%nat; 9%nat];
     State.notified := [] |}.

Definition initial : State.t :=
  {| State.calls := [];
     State.currentDisplayConfig := None;
     State.displayChangeCallbacks := [];
     State.notified := [] |}.
End Sample.

(** Sessions for the examples of the subscription functions. *)
Module SampleSession.
(** A listener that throws when it is handed an error. *)
Definition grumpy_listener (grumpy : Listener)
  : Listener -> CallbackArgs.t -> option JsError :=
  fun callback a =>
    if (callback =? grumpy)%nat
    then match CallbackArgs.err a with
         | Some _ => Some (Thrown (JsString "no"))
         | None => None
         end
    else None.

(** The module just loaded: nothing cached, nobody subscribed, the first
    update done. *)
Definition fresh : Session.t :=
  {| Session.state := Sample.initial;
     Session.listening := [];
     Session.currentDisplayConfigPromise := Resolved tt |}.

(** Listeners 7 and 9 subscribed, monitor B cached. *)
Definition session : Session.t :=
  {| Session.state := Sample.subscribed;
     Session.listening := [Call_listenForDisplayChanges];
     Session.currentDisplayConfigPromise := Resolved tt |}.
(** Monitor B cached, nobody subscribed. *)
Definition cached : Session.t :=
  {| Session.state :=
       {| State.calls := [Call_queryDisplayConfig];
          State.currentDisplayConfig := Some [Sample.entryB];
          State.displayChangeCallbacks := [];
          State.notified := [] |};
     Session.listening := [];
     Session.currentDisplayConfigPromise := Resolved tt |}.
End SampleSession.

(** ** The conditions of the specification, in its own words *)

(** The join of a path with a name record: equal adapter id parts and id,
    both output technologies truthy, a device path that is not empty. *)
Definition join_condition (p : PathInfo.t) (n : Name.t) : Prop :=
  Luid.LowPart (Name.adapterId n)
    = Luid.LowPart (TargetInfo.adapterId (PathInfo.targetInfo p))
  ∧ Luid.HighPart (Name.adapterId n)
    = Luid.HighPart (TargetInfo.adapterId (PathInfo.targetInfo p))
  ∧ Name.id n = TargetInfo.id (PathInfo.targetInfo p)
  ∧ truthy (Name.outputTechnology n) = true
  ∧ truthy (TargetInfo.outputTechnology (PathInfo.targetInfo p)) = true
  ∧ Name.monitorDevicePath n ≠ EmptyString.

#[export] Instance join_condition_dec p n : Decision (join_condition p n).
Proof. unfold join_condition. apply _. Defined.

(** A mode index that is missing or addresses no element of the array. *)
Definition index_unresolved {A : Type} (arr : list A) (idx : option Z) : Prop :=
  match idx with
  | None => True
  | Some i => i < 0 ∨ Z.of_nat (length arr) <= i
  end.

#[export] Instance index_unresolved_dec {A} (arr : list A) idx :
  Decision (index_unresolved arr idx).
Proof. destruct idx; simpl; apply _. Defined.

(** The entries that the paths [paths] of [config] contribute, in order. *)
Definition entries_of (config : DisplayConfig.t) (paths : list (Raw PathInfo.t))
  : list Entry.t :=
  omap (extractDisplayConfig_path config) paths.

(** The source mode of a path cannot be used: its index is missing or out
    of range, or the record it addresses is not tagged [source]. *)
Definition source_mode_unusable (config : DisplayConfig.t) (p : PathInfo.t)
  : Prop :=
  index_unresolved (DisplayConfig.modeArray config)
                   (SourceInfo.modeInfoIdx (PathInfo.sourceInfo p))
  ∨ exists i m,
      SourceInfo.modeInfoIdx (PathInfo.sourceInfo p) = Some i
      ∧ 0 <= i
      ∧ DisplayConfig.modeArray config !! Z.to_nat i = Some m
      ∧ ModeInfo.infoType (value m) ≠ source.

(** The record captured for an entry: its device path and its three
    buffers, base64-encoded. *)
Definition snapshot_of (base64_encode : Buffer -> string) (entry : Entry.t)
  : RestorationRecord.t :=
  {| RestorationRecord.devicePath := Entry.devicePath entry;
     RestorationRecord.pathBuffer :=
       Some (base64_encode (Entry.pathBuffer entry));
     RestorationRecord.sourceModeBuffer :=
       Some (base64_encode (Entry.sourceModeBuffer entry));
     RestorationRecord.targetModeBuffer :=
       base64_encode <$> Entry.targetModeBuffer entry |}.

(** [capture] in the words of the specification: keep the entries in use
    that have a target mode buffer, encode each. *)
Definition capture (base64_encode : Buffer -> string) (entries : list Entry.t)
  : list RestorationRecord.t :=
  snapshot_of base64_encode
    <$> filter (fun e => Entry.inUse e = true ∧ Entry.targetModeBuffer e ≠ None)
               entries.

(** The target config ids of the live entries whose device path is among
    [paths], in the order of the live entries; none when [paths] is not an
    array. *)
Definition ids_matching (paths : option (list string)) (live : list Entry.t)
  : list ConfigId.t :=
  match paths with
  | None => []
  | Some paths =>
    Entry.targetConfigId <$> filter (fun e => Entry.devicePath e ∈ paths) live
  end.

(** The entries that the lookup admits for the device path [p]: those of
    that path that are not both in use and without a target mode buffer. *)
Definition lookup_admits (p : string) (e : Entry.t) : Prop :=
  Entry.devicePath e = p
  ∧ ¬ (Entry.inUse e = true ∧ Entry.targetModeBuffer e = None).

#[export] Instance lookup_admits_dec p e : Decision (lookup_admits p e).
Proof. unfold lookup_admits. apply _. Defined.

(** A request item that has a target mode buffer has the other two
    buffers as well. *)
Definition stored_buffers_complete (r : RestorationRecord.t) : Prop :=
  RestorationRecord.targetModeBuffer r ≠ None ->
  RestorationRecord.pathBuffer r ≠ None
  ∧ RestorationRecord.sourceModeBuffer r ≠ None.

#[export] Instance stored_buffers_complete_dec r :
  Decision (stored_buffers_complete r).
Proof. unfold stored_buffers_complete. apply _. Defined.

(** The record given to the native restore for a request item: the config
    ids of the live entry found under its device path, with the stored
    buffers decoded; none for an item without target mode buffer or without
    live entry in the lookup. *)
Definition coerced_record (base64_decode : string -> Buffer)
    (pathLookup : gmap string Entry.t) (item : RestorationRecord.t)
  : option CoercedEntry.t :=
  targetModeBuffer ← RestorationRecord.targetModeBuffer item;
  pathBuffer ← RestorationRecord.pathBuffer item;
  sourceModeBuffer ← RestorationRecord.sourceModeBuffer item;
  currentConfigEntry ← pathLookup !! RestorationRecord.devicePath item;
  Some {| CoercedEntry.sourceConfigId := Entry.sourceConfigId currentConfigEntry;
          CoercedEntry.targetConfigId := Entry.targetConfigId currentConfigEntry;
          CoercedEntry.pathBuffer := base64_decode pathBuffer;
          CoercedEntry.sourceModeBuffer := base64_decode sourceModeBuffer;
          CoercedEntry.targetModeBuffer := base64_decode targetModeBuffer |}.

(** The device paths that a request wants enabled, and those it wants
    disabled. *)
Definition desired_enabled (config : list RestorationRecord.t) : list string :=
  RestorationRecord.devicePath
    <$> filter (fun r => RestorationRecord.targetModeBuffer r ≠ None) config.

Definition desired_disabled (config : list RestorationRecord.t) : list string :=
  RestorationRecord.devicePath
    <$> filter (fun r => RestorationRecord.targetModeBuffer r = None) config.

(** No call in [rest] is the native restore. *)
Definition no_native_restore (rest : list NativeCall) : Prop :=
  Forall (fun c => match c with
                   | Call_restoreDisplayConfig _ _ => False
                   | _ => True
                   end) rest.

(** The error with which an extraction rejects after the given reply to
    its query; none after a reply that carries a configuration. *)
Definition query_error (r : QueryReply) : option JsError :=
  match r with
  | QueryFailed err => Some (Win32Error err)
  | QueryNotRan => Some TypeError
  | QuerySucceeded _ => None
  end.


#[export] Instance byte_eq_dec : EqDecision Byte.byte :=
  Stdlib.Strings.Byte.byte_eq_dec.

#[export] Instance Buffer_eq_dec : EqDecision Buffer := list_eq_dec.

(** The codec gives back the three buffers of an entry. *)
Definition buffers_round_trip (base64_encode : Buffer -> string)
    (base64_decode : string -> Buffer) (e : Entry.t) : Prop :=
  base64_decode (base64_encode (Entry.pathBuffer e)) = Entry.pathBuffer e
  ∧ base64_decode (base64_encode (Entry.sourceModeBuffer e))
    = Entry.sourceModeBuffer e
  ∧ (base64_decode <$> (base64_encode <$> Entry.targetModeBuffer e))
    = Entry.targetModeBuffer e.

#[export] Instance buffers_round_trip_dec enc dec e :
  Decision (buffers_round_trip enc dec e).
Proof. unfold buffers_round_trip. apply _. Defined.

(** A request item that makes [Buffer.from] throw in the exact restore: it
    has a target mode buffer and a live entry in the lookup, and lacks the
    path buffer or the source mode buffer. *)
Definition record_incomplete (pathLookup : gmap string Entry.t)
    (r : RestorationRecord.t) : Prop :=
  RestorationRecord.targetModeBuffer r ≠ None
  ∧ pathLookup !! RestorationRecord.devicePath r ≠ None
  ∧ (RestorationRecord.pathBuffer r = None
     ∨ RestorationRecord.sourceModeBuffer r = None).

#[export] Instance record_incomplete_dec pathLookup r :
  Decision (record_incomplete pathLookup r).
Proof. unfold record_incomplete. apply _. Defined.

(** No live entry has its device path in [paths]; so it is for a [paths]
    that is not an array. *)
Definition no_live_match (paths : option (list string)) (live : list Entry.t)
  : Prop :=
  match paths with
  | None => True
  | Some paths => Forall (fun e => Entry.devicePath e ∉ paths) live
  end.

#[export] Instance no_live_match_dec paths live :
  Decision (no_live_match paths live).
Proof. destruct paths; simpl; apply _. Defined.

(** The last registration call of a log is the one that starts
    listening. *)
Definition listening_active (log : list ListenCall) : Prop :=
  last log = Some Call_listenForDisplayChanges.

(** ** The extractor *)

Section Extractor.

Variable addon : Addon.t.

Lemma fold_left_push_omap {A B : Type} (f : A -> option B) (l : list A)
    (acc : list B) :
  fold_left (fun ret x => match f x with None => ret | Some o => ret ++ [o] end)
            l acc
  = acc ++ omap f l.
Proof.
  revert acc. induction l as [|x l IH]; intros acc; simpl.
  - by rewrite app_nil_r.
  - rewrite IH. destruct (f x); [|done]. by rewrite <- app_assoc.
Qed.

Lemma extractDisplayConfig_loop_entries config :
  extractDisplayConfig_loop config
  = entries_of config (DisplayConfig.pathArray config).
Proof. unfold extractDisplayConfig_loop. by rewrite fold_left_push_omap. Qed.

Lemma entries_of_app config l1 l2 :
  entries_of config (l1 ++ l2) = entries_of config l1 ++ entries_of config l2.
Proof. apply omap_app. Qed.

Lemma entries_of_dropped config before p after :
  extractDisplayConfig_path config p = None ->
  entries_of config (before ++ p :: after)
  = entries_of config before ++ entries_of config after.
Proof.
  intros Hp. rewrite entries_of_app. unfold entries_of at 2. simpl.
  by rewrite Hp.
Qed.

Lemma entries_of_kept config before p after output :
  extractDisplayConfig_path config p = Some output ->
  entries_of config (before ++ p :: after)
  = entries_of config before ++ output :: entries_of config after.
Proof.
  intros Hp. rewrite entries_of_app. unfold entries_of at 2. simpl.
  by rewrite Hp.
Qed.

(** A query that succeeds makes the extraction resolve, with one logged
    call. *)
Lemma extractDisplayConfig_resolved s config :
  Addon.win32_queryDisplayConfig addon (State.calls s) = QuerySucceeded config ->
  extractDisplayConfig addon s
  = (Resolved (entries_of config (DisplayConfig.pathArray config)),
     State.log_call Call_queryDisplayConfig s).
Proof.
  intros Hq. unfold extractDisplayConfig, queryDisplayConfig, mbind, Async_bind.
  rewrite Hq. simpl. by rewrite extractDisplayConfig_loop_entries.
Qed.

Lemma name_matches_join p n :
  name_matches (TargetInfo.adapterId (PathInfo.targetInfo p))
               (TargetInfo.id (PathInfo.targetInfo p))
               (TargetInfo.outputTechnology (PathInfo.targetInfo p)) n = true
  <-> join_condition p n.
Proof.
  unfold name_matches, join_condition.
  rewrite !andb_true_iff, !Z.eqb_eq, Nat.ltb_lt.
  destruct (Name.monitorDevicePath n); simpl; intuition (try congruence; lia).
Qed.

Lemma find_name_none p names :
  Forall (fun n => ¬ join_condition p n) names ->
  find (name_matches (TargetInfo.adapterId (PathInfo.targetInfo p))
                     (TargetInfo.id (PathInfo.targetInfo p))
                     (TargetInfo.outputTechnology (PathInfo.targetInfo p)))
       names = None.
Proof.
  induction 1 as [|n names Hn _ IH]; simpl; [done|].
  destruct (name_matches _ _ _ n) eqn:Hm; [|done].
  by apply name_matches_join in Hm.
Qed.

Lemma find_name_some p names :
  Exists (join_condition p) names ->
  exists n,
    find (name_matches (TargetInfo.adapterId (PathInfo.targetInfo p))
                       (TargetInfo.id (PathInfo.targetInfo p))
                       (TargetInfo.outputTechnology (PathInfo.targetInfo p)))
         names = Some n.
Proof.
  induction 1 as [n names Hn|n names _ IH]; simpl.
  - apply name_matches_join in Hn. rewrite Hn. eauto.
  - destruct (name_matches _ _ _ n); eauto.
Qed.

Lemma array_get_unresolved {A} (arr : list A) idx :
  index_unresolved arr idx -> array_get arr idx = None.
Proof.
  destruct idx as [i|]; simpl; [|done]. intros [Hi|Hi].
  - by rewrite (proj2 (Z.ltb_lt _ _) Hi).
  - rewrite (proj2 (Z.leb_le _ _) Hi). by rewrite orb_true_r.
Qed.

Lemma array_get_resolved {A} (arr : list A) i x :
  0 <= i -> arr !! Z.to_nat i = Some x -> array_get arr (Some i) = Some x.
Proof.
  intros Hi Hx. simpl.
  assert (Z.to_nat i < length arr)%nat as Hlt by (eapply lookup_lt_Some; eauto).
  rewrite (proj2 (Z.ltb_ge _ _) Hi).
  by rewrite (proj2 (Z.leb_gt _ _)) by lia.
Qed.

End Extractor.

(** C4. Join correctness: when no name record of the configuration
    satisfies the join condition with a path (equal adapter id parts and
    id, both output technologies truthy, device path not empty), the
    iteration for that path is a [continue], and the extraction resolves
    to the entries of the other paths only. *)
Theorem extract_drops_path_without_name
    (addon : Addon.t) (s : State.t) (config : DisplayConfig.t)
    (before after : list (Raw PathInfo.t)) (p : Raw PathInfo.t) :
  Addon.win32_queryDisplayConfig addon (State.calls s) = QuerySucceeded config ->
  DisplayConfig.pathArray config = before ++ p :: after ->
  Forall (fun n => ¬ join_condition (value p) n) (DisplayConfig.nameArray config) ->
  extractDisplayConfig_path config p = None
  ∧ extractDisplayConfig addon s
    = (Resolved (entries_of config before ++ entries_of config after),
       State.log_call Call_queryDisplayConfig s).
Proof.
  intros Hq Hpaths Hnames.
  assert (extractDisplayConfig_path config p = None) as Hp.
  { unfold extractDisplayConfig_path. cbv zeta.
    by rewrite (find_name_none (value p)). }
  split; [done|].
  rewrite (extractDisplayConfig_resolved addon s config Hq), Hpaths.
  by rewrite entries_of_dropped.
Qed.

Lemma extract_drops_path_without_name_witness :
  extractDisplayConfig_path
    (Sample.live_of [Sample.pathA; Sample.pathX; Sample.pathB] Sample.names)
    Sample.pathX = None
  ∧ extractDisplayConfig
      (Sample.addon
         (Sample.live_of [Sample.pathA; Sample.pathX; Sample.pathB] Sample.names))
      Sample.initial
    = (Resolved
         (entries_of
            (Sample.live_of [Sample.pathA; Sample.pathX; Sample.pathB] Sample.names)
            [Sample.pathA]
          ++ entries_of
            (Sample.live_of [Sample.pathA; Sample.pathX; Sample.pathB] Sample.names)
            [Sample.pathB]),
       State.log_call Call_queryDisplayConfig Sample.initial).
Proof.
  apply (extract_drops_path_without_name
           (Sample.addon
              (Sample.live_of [Sample.pathA; Sample.pathX; Sample.pathB]
                              Sample.names))
           Sample.initial _ [Sample.pathA] [Sample.pathB] Sample.pathX).
  - reflexivity.
  - reflexivity.
  - apply (bool_decide_unpack _). vm_compute. exact I.
Defined.

(** C5. Source-mode strictness: a path whose source mode index is missing
    or out of range, or addresses a record not tagged [source], yields no
    entry whatever its target mode index is, and the extraction still
    resolves (the index is never an error), to the entries of the other
    paths. *)
Theorem extract_drops_path_without_source_mode
    (addon : Addon.t) (s : State.t) (config : DisplayConfig.t)
    (before after : list (Raw PathInfo.t)) (p : Raw PathInfo.t) :
  Addon.win32_queryDisplayConfig addon (State.calls s) = QuerySucceeded config ->
  DisplayConfig.pathArray config = before ++ p :: after ->
  source_mode_unusable config (value p) ->
  extractDisplayConfig_path config p = None
  ∧ extractDisplayConfig addon s
    = (Resolved (entries_of config before ++ entries_of config after),
       State.log_call Call_queryDisplayConfig s).
Proof.
  intros Hq Hpaths Hsrc.
  assert (extractDisplayConfig_path config p = None) as Hp.
  { unfold extractDisplayConfig_path. cbv zeta.
    destruct (find _ _); [|done].
    destruct Hsrc as [Hidx|(i & m & Hi & Hpos & Hm & Htag)].
    - by rewrite (array_get_unresolved _ _ Hidx).
    - rewrite Hi, (array_get_resolved _ _ _ Hpos Hm).
      destruct (ModeInfo.infoType (value m)); done. }
  split; [done|].
  rewrite (extractDisplayConfig_resolved addon s config Hq), Hpaths.
  by rewrite entries_of_dropped.
Qed.

Lemma extract_drops_path_without_source_mode_witness :
  extractDisplayConfig_path
    (Sample.live_of [Sample.pathA_no_source; Sample.pathB] Sample.names)
    Sample.pathA_no_source = None
  ∧ extractDisplayConfig
      (Sample.addon
         (Sample.live_of [Sample.pathA_no_source; Sample.pathB] Sample.names))
      Sample.initial
    = (Resolved
         (entries_of
            (Sample.live_of [Sample.pathA_no_source; Sample.pathB] Sample.names)
            []
          ++ entries_of
            (Sample.live_of [Sample.pathA_no_source; Sample.pathB] Sample.names)
            [Sample.pathB]),
       State.log_call Call_queryDisplayConfig Sample.initial).
Proof.
  apply (extract_drops_path_without_source_mode
           (Sample.addon
              (Sample.live_of [Sample.pathA_no_source; Sample.pathB]
                              Sample.names))
           Sample.initial _ [] [Sample.pathB] Sample.pathA_no_source).
  - reflexivity.
  - reflexivity.
  - left. simpl. lia.
Defined.

(** C6. Target-mode leniency: a path whose target mode index is missing or
    out of range, whose name resolves (some name record satisfies the join
    condition) and whose source mode index addresses a record tagged
    [source], is not dropped: it yields an entry with [inUse] false and
    without [targetModeBuffer] and [targetVideoSignalInfo], at the place of
    the path in the output. *)
Theorem extract_keeps_path_without_target_mode
    (addon : Addon.t) (s : State.t) (config : DisplayConfig.t)
    (before after : list (Raw PathInfo.t)) (p : Raw PathInfo.t)
    (i : Z) (m : Raw ModeInfo.t) :
  Addon.win32_queryDisplayConfig addon (State.calls s) = QuerySucceeded config ->
  DisplayConfig.pathArray config = before ++ p :: after ->
  index_unresolved (DisplayConfig.modeArray config)
                   (TargetInfo.modeInfoIdx (PathInfo.targetInfo (value p))) ->
  Exists (join_condition (value p)) (DisplayConfig.nameArray config) ->
  SourceInfo.modeInfoIdx (PathInfo.sourceInfo (value p)) = Some i ->
  0 <= i ->
  DisplayConfig.modeArray config !! Z.to_nat i = Some m ->
  ModeInfo.infoType (value m) = source ->
  exists output,
    extractDisplayConfig_path config p = Some output
    ∧ Entry.inUse output = false
    ∧ Entry.targetModeBuffer output = None
    ∧ Entry.targetVideoSignalInfo output = None
    ∧ extractDisplayConfig addon s
      = (Resolved (entries_of config before ++ output :: entries_of config after),
         State.log_call Call_queryDisplayConfig s).
Proof.
  intros Hq Hpaths Htgt Hname Hi Hpos Hm Htag.
  destruct (find_name_some _ _ Hname) as [n Hn].
  assert (exists output,
            extractDisplayConfig_path config p = Some output
            ∧ Entry.inUse output = false
            ∧ Entry.targetModeBuffer output = None
            ∧ Entry.targetVideoSignalInfo output = None)
    as (output & Hp & Huse & Hbuf & Hvsi).
  { unfold extractDisplayConfig_path. cbv zeta.
    rewrite Hn, Hi, (array_get_resolved _ _ _ Hpos Hm).
    rewrite (array_get_unresolved _ _ Htgt), Htag. simpl.
    eexists. split; [reflexivity|]. by simpl. }
  exists output. repeat split; try done.
  rewrite (extractDisplayConfig_resolved addon s config Hq), Hpaths.
  by rewrite (entries_of_kept _ _ _ _ output).
Qed.

Lemma extract_keeps_path_without_target_mode_witness :
  exists output,
    extractDisplayConfig_path
      (Sample.live_of [Sample.pathA_no_target; Sample.pathB] Sample.names)
      Sample.pathA_no_target = Some output
    ∧ Entry.inUse output = false
    ∧ Entry.targetModeBuffer output = None
    ∧ Entry.targetVideoSignalInfo output = None
    ∧ extractDisplayConfig
        (Sample.addon
           (Sample.live_of [Sample.pathA_no_target; Sample.pathB] Sample.names))
        Sample.initial
      = (Resolved
           (entries_of
              (Sample.live_of [Sample.pathA_no_target; Sample.pathB] Sample.names)
              []
            ++ output
            :: entries_of
              (Sample.live_of [Sample.pathA_no_target; Sample.pathB] Sample.names)
              [Sample.pathB]),
         State.log_call Call_queryDisplayConfig Sample.initial).
Proof.
  apply (extract_keeps_path_without_target_mode
           (Sample.addon
              (Sample.live_of [Sample.pathA_no_target; Sample.pathB]
                              Sample.names))
           Sample.initial _ [] [Sample.pathB] Sample.pathA_no_target
           0 {| value := ModeInfo.Source (JsString "1920x1080");
                buffer := [Byte.x01; Byte.x02] |}).
  - reflexivity.
  - reflexivity.
  - simpl. lia.
  - apply (bool_decide_unpack _). vm_compute. exact I.
  - reflexivity.
  - lia.
  - reflexivity.
  - reflexivity.
Defined.

(** C9. The name match tests each output technology for truthiness and
    never compares the two.  A name record [n] that agrees with the path
    [p] on the adapter id parts and the id, has a device path that is not
    empty and a truthy output technology different from the truthy one of
    the path, matches; with [n] in the name array and a source mode index
    that addresses a record tagged [source], [p] yields an entry.  A path
    [q] whose target output technology is falsy matches no name record of
    its configuration and is dropped. *)
Theorem name_match_ignores_technology_value
    (config : DisplayConfig.t) (p : Raw PathInfo.t) (n : Name.t)
    (i : Z) (m : Raw ModeInfo.t)
    (config' : DisplayConfig.t) (q : Raw PathInfo.t) :
  Luid.LowPart (Name.adapterId n)
    = Luid.LowPart (TargetInfo.adapterId (PathInfo.targetInfo (value p))) ->
  Luid.HighPart (Name.adapterId n)
    = Luid.HighPart (TargetInfo.adapterId (PathInfo.targetInfo (value p))) ->
  Name.id n = TargetInfo.id (PathInfo.targetInfo (value p)) ->
  Name.monitorDevicePath n ≠ EmptyString ->
  truthy (Name.outputTechnology n) = true ->
  truthy (TargetInfo.outputTechnology (PathInfo.targetInfo (value p))) = true ->
  Name.outputTechnology n
    ≠ TargetInfo.outputTechnology (PathInfo.targetInfo (value p)) ->
  n ∈ DisplayConfig.nameArray config ->
  SourceInfo.modeInfoIdx (PathInfo.sourceInfo (value p)) = Some i ->
  0 <= i ->
  DisplayConfig.modeArray config !! Z.to_nat i = Some m ->
  ModeInfo.infoType (value m) = source ->
  truthy (TargetInfo.outputTechnology (PathInfo.targetInfo (value q))) = false ->
  name_matches (TargetInfo.adapterId (PathInfo.targetInfo (value p)))
               (TargetInfo.id (PathInfo.targetInfo (value p)))
               (TargetInfo.outputTechnology (PathInfo.targetInfo (value p)))
               n = true
  ∧ (exists output, extractDisplayConfig_path config p = Some output)
  ∧ Forall
      (fun n' =>
         name_matches (TargetInfo.adapterId (PathInfo.targetInfo (value q)))
                      (TargetInfo.id (PathInfo.targetInfo (value q)))
                      (TargetInfo.outputTechnology
                         (PathInfo.targetInfo (value q)))
                      n' = false)
      (DisplayConfig.nameArray config')
  ∧ extractDisplayConfig_path config' q = None.
Proof.
  intros Hlow Hhigh Hid Hpath Hn Hp _ Hin Hi Hpos Hm Htag Hfalsy.
  assert (join_condition (value p) n) as Hjoin by (by unfold join_condition).
  assert (forall n', ¬ join_condition (value q) n') as Hnone.
  { intros n' (_ & _ & _ & _ & Ht & _). congruence. }
  split_and!.
  - by apply name_matches_join.
  - destruct (find_name_some (value p) (DisplayConfig.nameArray config))
      as [n0 Hn0].
    { apply Exists_exists. by exists n. }
    unfold extractDisplayConfig_path. cbv zeta.
    rewrite Hn0, Hi, (array_get_resolved _ _ _ Hpos Hm), Htag. simpl. eauto.
  - apply Forall_forall. intros n' _.
    destruct (name_matches _ _ _ n') eqn:Hmatch; [|done].
    apply name_matches_join in Hmatch. by apply Hnone in Hmatch.
  - unfold extractDisplayConfig_path. cbv zeta.
    rewrite (find_name_none (value q)); [done|].
    apply Forall_forall. intros n' _. apply Hnone.
Qed.

Lemma name_match_ignores_technology_value_witness :
  name_matches Sample.luid 10 Sample.hdmi Sample.nameA_dvi = true
  ∧ (exists output,
       extractDisplayConfig_path
         (Sample.live_of [Sample.pathA] [Sample.nameA_dvi]) Sample.pathA
       = Some output)
  ∧ Forall
      (fun n' => name_matches Sample.luid 10 (JsNumber 0) n' = false)
      Sample.names
  ∧ extractDisplayConfig_path
      (Sample.live_of [Sample.pathA_no_technology] Sample.names)
      Sample.pathA_no_technology
    = None.
Proof.
  apply (name_match_ignores_technology_value
           (Sample.live_of [Sample.pathA] [Sample.nameA_dvi])
           Sample.pathA Sample.nameA_dvi
           0 {| value := ModeInfo.Source (JsString "1920x1080");
                buffer := [Byte.x01; Byte.x02] |}
           (Sample.live_of [Sample.pathA_no_technology] Sample.names)
           Sample.pathA_no_technology).
  - reflexivity.
  - reflexivity.
  - reflexivity.
  - simpl. discriminate.
  - reflexivity.
  - reflexivity.
  - simpl. discriminate.
  - simpl. constructor.
  - reflexivity.
  - lia.
  - reflexivity.
  - reflexivity.
  - reflexivity.
Defined.

(** ** The snapshot for restoration *)

Lemma displayConfigForRestoration_loop_acc base64_encode entries acc :
  fold_left
    (fun ret entry =>
       if negb (Entry.inUse entry)
          || bool_decide (Entry.targetModeBuffer entry = None)
       then ret
       else ret ++ [snapshot_of base64_encode entry])
    entries acc
  = acc ++ capture base64_encode entries.
Proof.
  unfold capture. revert acc.
  induction entries as [|e entries IH]; intros acc; simpl.
  - by rewrite app_nil_r.
  - rewrite IH, filter_cons.
    destruct (decide (Entry.inUse e = true ∧ Entry.targetModeBuffer e ≠ None))
      as [[Huse Hbuf]|Hd].
    + rewrite Huse, bool_decide_eq_false_2 by done. simpl.
      by rewrite <- app_assoc.
    + destruct (Entry.inUse e) eqn:Huse; simpl; [|done].
      rewrite bool_decide_eq_true_2; [done|].
      destruct (Entry.targetModeBuffer e); [|done].
      exfalso. by apply Hd.
Qed.

(** C7. The snapshot has exactly one record per entry that is in use and
    has a target mode buffer, in the order of the entries; each record is
    the device path of its entry with the three buffers base64-encoded, all
    three present; nothing else is in the snapshot.  The asynchronous
    function applies this to the entries it extracts and rejects when the
    extraction does. *)
Theorem displayConfigForRestoration_captures
    (addon : Addon.t) (base64_encode : Buffer -> string)
    (entries : list Entry.t) (s : State.t) :
  displayConfigForRestoration_loop base64_encode entries
    = capture base64_encode entries
  ∧ Forall
      (fun r =>
         exists e b,
           e ∈ entries
           ∧ Entry.inUse e = true
           ∧ Entry.targetModeBuffer e = Some b
           ∧ r = {| RestorationRecord.devicePath := Entry.devicePath e;
                    RestorationRecord.pathBuffer :=
                      Some (base64_encode (Entry.pathBuffer e));
                    RestorationRecord.sourceModeBuffer :=
                      Some (base64_encode (Entry.sourceModeBuffer e));
                    RestorationRecord.targetModeBuffer :=
                      Some (base64_encode b) |})
      (displayConfigForRestoration_loop base64_encode entries)
  ∧ displayConfigForRestoration addon base64_encode s
    = match extractDisplayConfig addon s with
      | (Resolved currentConfig, s') =>
        (Resolved (capture base64_encode currentConfig), s')
      | (Rejected e, s') => (Rejected e, s')
      end.
Proof.
  assert (forall l, displayConfigForRestoration_loop base64_encode l
                    = capture base64_encode l) as Hloop.
  { intros l. unfold displayConfigForRestoration_loop.
    apply (displayConfigForRestoration_loop_acc base64_encode l []). }
  split; [apply Hloop|]. split.
  - rewrite Hloop. unfold capture. apply Forall_forall. intros r Hr.
    apply list_elem_of_fmap in Hr as (e & -> & He).
    apply list_elem_of_filter in He as [[Huse Hbuf] He].
    destruct (Entry.targetModeBuffer e) as [b|] eqn:Hb; [|done].
    exists e, b. repeat split; try done.
    unfold snapshot_of. by rewrite Hb.
  - unfold displayConfigForRestoration, mbind, Async_bind.
    destruct (extractDisplayConfig addon s) as [[currentConfig|e] s']; [|done].
    unfold mret, Async_ret. by rewrite Hloop.
Qed.

(** ** The toggle executor *)

Lemma toggle_ids_acc enablePaths disablePaths live enable disable :
  fold_left
    (fun '(enable, disable) entry =>
       let devicePath := Entry.devicePath entry in
       let targetConfigId := Entry.targetConfigId entry in
       let enable :=
         match enablePaths with
         | Some enablePaths =>
           if bool_decide (devicePath ∈ enablePaths)
           then enable ++ [targetConfigId] else enable
         | None => enable
         end in
       let disable :=
         match disablePaths with
         | Some disablePaths =>
           if bool_decide (devicePath ∈ disablePaths)
           then disable ++ [targetConfigId] else disable
         | None => disable
         end in
       (enable, disable))
    live (enable, disable)
  = (enable ++ ids_matching enablePaths live,
     disable ++ ids_matching disablePaths live).
Proof.
  revert enable disable.
  induction live as [|e live IH]; intros enable disable; simpl.
  - unfold ids_matching.
    destruct enablePaths, disablePaths; simpl; by rewrite ?app_nil_r.
  - rewrite IH. f_equal.
    + destruct enablePaths as [l|]; simpl; [|done].
      rewrite filter_cons. case_bool_decide; destruct (decide _); try done.
      simpl. by rewrite <- app_assoc.
    + destruct disablePaths as [l|]; simpl; [|done].
      rewrite filter_cons. case_bool_decide; destruct (decide _); try done.
      simpl. by rewrite <- app_assoc.
Qed.

Lemma toggle_ids_matching enablePaths disablePaths live :
  toggle_ids enablePaths disablePaths live
  = (ids_matching enablePaths live, ids_matching disablePaths live).
Proof. unfold toggle_ids. by rewrite toggle_ids_acc. Qed.

(** What a call of [toggleEnabledDisplays] does, whatever its argument. *)
Lemma toggleEnabledDisplays_run addon args s :
  toggleEnabledDisplays addon args s
  = match extractDisplayConfig addon s with
    | (Resolved live, s') =>
      win32_toggleEnabledDisplays addon
        {| NativeToggleArgs.enable := ids_matching (ToggleArgs.enable args) live;
           NativeToggleArgs.disable := ids_matching (ToggleArgs.disable args) live;
           NativeToggleArgs.persistent := ToggleArgs.persistent args |} s'
    | (Rejected e, s') => (Rejected e, s')
    end.
Proof.
  unfold toggleEnabledDisplays, mbind, Async_bind.
  destruct (extractDisplayConfig addon s) as [[live|e] s']; [|done].
  by rewrite toggle_ids_matching.
Qed.

(** C10. A direct call of [toggleEnabledDisplays] whose [enable] and
    [disable] arrays both hold the device path of a live entry pushes the
    target config id of that entry onto both id lists given to the native
    toggle: nothing makes the two lists exclusive here.  Each id list has
    one id per live entry whose device path is in the corresponding array,
    in the order of the extraction, and the native toggle is the one call
    made after the query. *)
Theorem toggleEnabledDisplays_pushes_on_both_lists
    (addon : Addon.t) (args : ToggleArgs.t) (s s' : State.t)
    (live : list Entry.t) (enablePaths disablePaths : list string)
    (entry : Entry.t) :
  extractDisplayConfig addon s = (Resolved live, s') ->
  ToggleArgs.enable args = Some enablePaths ->
  ToggleArgs.disable args = Some disablePaths ->
  entry ∈ live ->
  Entry.devicePath entry ∈ enablePaths ->
  Entry.devicePath entry ∈ disablePaths ->
  let enable :=
    Entry.targetConfigId
      <$> filter (fun e => Entry.devicePath e ∈ enablePaths) live in
  let disable :=
    Entry.targetConfigId
      <$> filter (fun e => Entry.devicePath e ∈ disablePaths) live in
  let native :=
    {| NativeToggleArgs.enable := enable;
       NativeToggleArgs.disable := disable;
       NativeToggleArgs.persistent := ToggleArgs.persistent args |} in
  toggleEnabledDisplays addon args s
    = (status_completion
         (Addon.win32_toggleEnabledDisplays addon (State.calls s') native),
       State.log_call (Call_toggleEnabledDisplays native) s')
  ∧ Entry.targetConfigId entry ∈ enable
  ∧ Entry.targetConfigId entry ∈ disable.
Proof.
  intros Hx Hen Hdis Hin Hpe Hpd enable disable native.
  split; [|split].
  - rewrite toggleEnabledDisplays_run, Hx, Hen, Hdis. reflexivity.
  - apply list_elem_of_fmap. exists entry. split; [done|].
    by apply list_elem_of_filter.
  - apply list_elem_of_fmap. exists entry. split; [done|].
    by apply list_elem_of_filter.
Qed.

Lemma toggleEnabledDisplays_pushes_on_both_lists_witness :
  toggleEnabledDisplays (Sample.addon Sample.live_A_B)
    {| ToggleArgs.persistent := false;
       ToggleArgs.enable := Some ["A"%string];
       ToggleArgs.disable := Some ["B"%string; "A"%string] |}
    Sample.initial
  = (Resolved tt,
     State.log_call
       (Call_toggleEnabledDisplays
          {| NativeToggleArgs.enable :=
               [{| ConfigId.adapterId := Sample.luid; ConfigId.id := 10 |}];
             NativeToggleArgs.disable :=
               [{| ConfigId.adapterId := Sample.luid; ConfigId.id := 10 |};
                {| ConfigId.adapterId := Sample.luid; ConfigId.id := 11 |}];
             NativeToggleArgs.persistent := false |})
       (State.log_call Call_queryDisplayConfig Sample.initial))
  ∧ {| ConfigId.adapterId := Sample.luid; ConfigId.id := 10 |}
    ∈ [{| ConfigId.adapterId := Sample.luid; ConfigId.id := 10 |}]
  ∧ {| ConfigId.adapterId := Sample.luid; ConfigId.id := 10 |}
    ∈ [{| ConfigId.adapterId := Sample.luid; ConfigId.id := 10 |};
       {| ConfigId.adapterId := Sample.luid; ConfigId.id := 11 |}].
Proof.
  apply (toggleEnabledDisplays_pushes_on_both_lists
           (Sample.addon Sample.live_A_B)
           {| ToggleArgs.persistent := false;
              ToggleArgs.enable := Some ["A"%string];
              ToggleArgs.disable := Some ["B"%string; "A"%string] |}
           Sample.initial
           (State.log_call Call_queryDisplayConfig Sample.initial)
           [Sample.entryA true (Some (JsString "60Hz", [Byte.x03]));
            Sample.entryB]
           ["A"%string] ["B"%string; "A"%string]
           (Sample.entryA true (Some (JsString "60Hz", [Byte.x03])))).
  - reflexivity.
  - reflexivity.
  - reflexivity.
  - constructor.
  - simpl. constructor.
  - simpl. constructor. constructor.
Defined.

(** ** The reconciliation engine *)

Section Reconciliation.

Variable addon : Addon.t.
Variable base64_decode : string -> Buffer.



Lemma coerce_step_record pathLookup coercedState item :
  stored_buffers_complete item ->
  coerce_step base64_decode pathLookup coercedState item
  = Resolved
      (coercedState
       ++ option_list (coerced_record base64_decode pathLookup item)).
Proof.
  intros Hfull. unfold coerce_step, coerced_record, stored_buffers_complete in *.
  destruct (RestorationRecord.targetModeBuffer item) as [t|]; simpl.
  - destruct Hfull as [Hp Hs]; [done|].
    destruct (RestorationRecord.pathBuffer item) as [pb|]; [|done].
    destruct (RestorationRecord.sourceModeBuffer item) as [sb|]; [|done].
    simpl. destruct (pathLookup !! _); simpl; [done|].
    by rewrite app_nil_r.
  - by rewrite app_nil_r.
Qed.

Lemma coerce_loop_acc pathLookup config coercedState :
  Forall stored_buffers_complete config ->
  fold_left
    (fun acc entry =>
       match acc with
       | Resolved coercedState =>
         coerce_step base64_decode pathLookup coercedState entry
       | Rejected e => Rejected e
       end)
    config (Resolved coercedState)
  = Resolved
      (coercedState ++ omap (coerced_record base64_decode pathLookup) config).
Proof.
  intros Hfull. revert coercedState.
  induction Hfull as [|item config Hitem _ IH]; intros coercedState; simpl.
  - by rewrite app_nil_r.
  - rewrite (coerce_step_record _ _ _ Hitem), IH.
    destruct (coerced_record _ _ item); simpl.
    + by rewrite <- app_assoc.
    + by rewrite app_nil_r.
Qed.

Lemma coerce_loop_records pathLookup config :
  Forall stored_buffers_complete config ->
  coerce_loop base64_decode pathLookup config
  = Resolved (omap (coerced_record base64_decode pathLookup) config).
Proof. intros Hfull. unfold coerce_loop. by rewrite coerce_loop_acc. Qed.

(** [missingEnabled] is empty exactly when every name wanted enabled is
    live. *)
Lemma missingEnabled_empty (names live : list string) :
  (length (setSubtract (list_to_set names) (list_to_set live)) =? 0)%nat = true
  <-> Forall (fun p => p ∈ live) names.
Proof.
  unfold setSubtract. rewrite Nat.eqb_eq, Forall_forall. split.
  - intros Hlen p Hp.
    apply nil_length_inv, elements_empty_inv in Hlen.
    destruct (decide (p ∈ live)) as [|Hout]; [done|].
    exfalso. apply (not_elem_of_empty (C:=gset string) p).
    rewrite <- Hlen. apply elem_of_filter. split.
    + by rewrite elem_of_list_to_set.
    + by apply elem_of_list_to_set.
  - intros Hall.
    assert (filter (fun entry => entry ∉ (list_to_set live : gset string))
                   (list_to_set names : gset string) = ∅) as ->.
    { apply set_eq. intros p. rewrite elem_of_filter, !elem_of_list_to_set.
      split; [|by intros ?%not_elem_of_empty].
      intros [Hout Hp]. exfalso. apply Hout. by apply Hall. }
    by rewrite elements_empty.
Qed.

End Reconciliation.

Section Fallback.

Variable givenAsSet : gset string.

Lemma toggle_pass_acc (names : list string) (seen : gset string)
    (out0 : list string) (seen' : gset string) (out : list string) :
  fold_left
    (fun '((seen, out) : gset string * list string) devicePathName =>
       if negb (bool_decide (devicePathName ∈ seen))
          && bool_decide (devicePathName ∈ givenAsSet)
       then ({[devicePathName]} ∪ seen, out ++ [devicePathName])
       else (seen, out))
    names (seen, out0) = (seen', out) ->
  exists new,
    out = out0 ++ new
    ∧ seen' = seen ∪ list_to_set new
    ∧ NoDup new
    ∧ forall x, x ∈ new <-> x ∈ names ∧ x ∈ givenAsSet ∧ x ∉ seen.
Proof.
  revert seen out0.
  induction names as [|name names IH]; intros seen out0; simpl.
  - intros [= <- <-]. exists [].
    split_and!; [by rewrite app_nil_r|set_solver|constructor|set_solver].
  - destruct (negb (bool_decide (name ∈ seen))
              && bool_decide (name ∈ givenAsSet)) eqn:Hpush; intros Hfold.
    + apply andb_true_iff in Hpush as [Hfresh Hlive].
      apply negb_true_iff, bool_decide_eq_false in Hfresh.
      apply bool_decide_eq_true in Hlive.
      destruct (IH _ _ Hfold) as (new & -> & -> & Hnd & Hnew).
      exists (name :: new). split_and!.
      * by rewrite <- app_assoc.
      * set_solver.
      * apply NoDup_cons. split; [|done]. intros Hin%Hnew. set_solver.
      * intros x. rewrite elem_of_cons, Hnew.
        destruct (decide (x = name)) as [->|Hne]; set_solver.
    + assert (name ∈ seen ∨ name ∉ givenAsSet) as Hwhy.
      { apply andb_false_iff in Hpush as [Hs|Hg].
        - left. apply negb_false_iff in Hs. by apply bool_decide_eq_true in Hs.
        - right. by apply bool_decide_eq_false in Hg. }
      destruct (IH _ _ Hfold) as (new & -> & -> & Hnd & Hnew).
      exists new. split_and!; try done.
      intros x. rewrite Hnew.
      destruct (decide (x = name)) as [->|Hne]; set_solver.
Qed.

(** One pass pushes, without repetition, exactly the names that are live
    and were not seen before it, and marks them seen. *)
Lemma toggle_pass_spec (names : list string) (seen seen' : gset string)
    (out : list string) :
  toggle_pass givenAsSet names seen = (seen', out) ->
  seen' = seen ∪ list_to_set out
  ∧ NoDup out
  ∧ forall x, x ∈ out <-> x ∈ names ∧ x ∈ givenAsSet ∧ x ∉ seen.
Proof.
  intros Hpass. apply toggle_pass_acc in Hpass as (new & -> & -> & Hnd & Hnew).
  done.
Qed.

End Fallback.

(** The extraction logs one query, whatever it answers. *)
Lemma extractDisplayConfig_state addon s :
  (extractDisplayConfig addon s).2 = State.log_call Call_queryDisplayConfig s.
Proof.
  unfold extractDisplayConfig, queryDisplayConfig, mbind, Async_bind.
  by destruct (Addon.win32_queryDisplayConfig addon (State.calls s)).
Qed.

(** A call of [toggleEnabledDisplays] never reaches the native restore. *)
Lemma toggleEnabledDisplays_calls addon args s :
  exists rest,
    State.calls (toggleEnabledDisplays addon args s).2 = State.calls s ++ rest
    ∧ no_native_restore rest.
Proof.
  rewrite toggleEnabledDisplays_run.
  pose proof (extractDisplayConfig_state addon s) as Hs.
  destruct (extractDisplayConfig addon s) as [[live|e] s']; simpl in *; subst s'.
  - eexists [_; _]. simpl. rewrite <- app_assoc. split; [reflexivity|].
    by repeat constructor.
  - exists [Call_queryDisplayConfig]. split; [done|]. by repeat constructor.
Qed.

Example extract_live_A_B :
  extractDisplayConfig_loop Sample.live_A_B
  = [Sample.entryA true (Some (JsString "60Hz", [Byte.x03])); Sample.entryB].
Proof. reflexivity. Qed.

Example extract_live_A_off :
  extractDisplayConfig_loop Sample.live_A_off = [Sample.entryA false None].
Proof. reflexivity. Qed.

Example extract_wrong_target :
  extractDisplayConfig_loop
    (Sample.live_of [Sample.pathA_wrong_target] Sample.names)
  = [Sample.entryA true None].
Proof. reflexivity. Qed.

Example extract_wrong_source :
  extractDisplayConfig_loop
    (Sample.live_of [Sample.pathA_wrong_source; Sample.pathB] Sample.names)
  = [Sample.entryB].
Proof. reflexivity. Qed.






(** C3. Fallback: when some device path that the request wants enabled is
    the device path of no live entry, [restoreDisplayConfig] does what
    [toggleEnabledDisplays] does on two lists of device paths, and the
    native restore is not called.  The [enable] list holds, once each, the
    live paths wanted enabled; the [disable] list holds, once each, the
    live paths wanted disabled and not wanted enabled.  So both lists hold
    live paths only, no path is in both, and a path that the request has
    both with and without a target mode buffer is never in the [disable]
    list and, being live, is in the [enable] list. *)
Theorem restoreDisplayConfig_fallback
    (addon : Addon.t) (base64_decode : string -> Buffer)
    (args : RestoreArgs.t) (s : State.t) (config : DisplayConfig.t) :
  Addon.win32_queryDisplayConfig addon (State.calls s) = QuerySucceeded config ->
  Exists
    (fun p =>
       p ∉ Entry.devicePath
             <$> entries_of config (DisplayConfig.pathArray config))
    (desired_enabled (RestoreArgs.config args)) ->
  let live :=
    Entry.devicePath <$> entries_of config (DisplayConfig.pathArray config) in
  let wanted_on := desired_enabled (RestoreArgs.config args) in
  let wanted_off := desired_disabled (RestoreArgs.config args) in
  exists enable disable : list string,
    restoreDisplayConfig addon base64_decode args s
    = toggleEnabledDisplays addon
        {| ToggleArgs.persistent := RestoreArgs.persistent args;
           ToggleArgs.enable := Some enable;
           ToggleArgs.disable := Some disable |}
        (State.log_call Call_queryDisplayConfig s)
    ∧ (exists rest,
         State.calls (restoreDisplayConfig addon base64_decode args s).2
         = State.calls s ++ Call_queryDisplayConfig :: rest
         ∧ no_native_restore rest)
    ∧ NoDup enable
    ∧ NoDup disable
    ∧ (forall p, p ∈ enable <-> p ∈ wanted_on ∧ p ∈ live)
    ∧ (forall p, p ∈ disable <-> p ∈ wanted_off ∧ p ∈ live ∧ p ∉ wanted_on)
    ∧ (forall p, p ∈ enable -> p ∉ disable)
    ∧ (forall p,
         p ∈ wanted_on -> p ∈ wanted_off ->
         (p ∉ disable) ∧ (p ∈ live -> p ∈ enable)).
Proof.
  intros Hq Hmissing live wanted_on wanted_off.
  destruct (toggle_pass (list_to_set live) wanted_on ∅) as [seen1 enable]
    eqn:Hpass1.
  destruct (toggle_pass (list_to_set live) wanted_off seen1) as [seen2 disable]
    eqn:Hpass2.
  exists enable, disable.
  assert (restoreDisplayConfig addon base64_decode args s
          = toggleEnabledDisplays addon
              {| ToggleArgs.persistent := RestoreArgs.persistent args;
                 ToggleArgs.enable := Some enable;
                 ToggleArgs.disable := Some disable |}
              (State.log_call Call_queryDisplayConfig s)) as Hrun.
  { unfold restoreDisplayConfig, mbind, Async_bind.
    rewrite (extractDisplayConfig_resolved addon s config Hq).
    fold (desired_enabled (RestoreArgs.config args)).
    fold (desired_disabled (RestoreArgs.config args)).
    fold live wanted_on wanted_off.
    destruct (length (setSubtract (list_to_set wanted_on) (list_to_set live))
              =? 0)%nat eqn:Hnone.
    - apply missingEnabled_empty in Hnone.
      apply Exists_exists in Hmissing as (p & Hp & Hout).
      rewrite Forall_forall in Hnone. by destruct (Hout (Hnone p Hp)).
    - by rewrite Hpass1, Hpass2. }
  apply toggle_pass_spec in Hpass1 as (-> & Hnd1 & Hen).
  apply toggle_pass_spec in Hpass2 as (_ & Hnd2 & Hdis).
  assert (forall p, p ∈ enable <-> p ∈ wanted_on ∧ p ∈ live) as Hen'.
  { intros p. rewrite Hen, elem_of_list_to_set. set_solver. }
  assert (forall p, p ∈ disable <-> p ∈ wanted_off ∧ p ∈ live ∧ p ∉ wanted_on)
    as Hdis'.
  { intros p. rewrite Hdis, elem_of_union, !elem_of_list_to_set, Hen'.
    set_solver. }
  split_and!; try done.
  - rewrite Hrun.
    destruct (toggleEnabledDisplays_calls addon
                {| ToggleArgs.persistent := RestoreArgs.persistent args;
                   ToggleArgs.enable := Some enable;
                   ToggleArgs.disable := Some disable |}
                (State.log_call Call_queryDisplayConfig s))
      as (rest & Hcalls & Hrest).
    exists rest. split; [|done]. rewrite Hcalls. simpl.
    by rewrite <- app_assoc.
  - intros p Hp Hd. apply Hen' in Hp. apply Hdis' in Hd. tauto.
  - intros p Hon Hoff. split.
    + intros Hd. apply Hdis' in Hd. tauto.
    + intros Hl. by apply Hen'.
Qed.

Lemma restoreDisplayConfig_fallback_witness :
  exists enable disable : list string,
    restoreDisplayConfig (Sample.addon Sample.live_A_B) Base64.decode
      {| RestoreArgs.config :=
           [Sample.stored "A"; Sample.stored "C"; Sample.path_only "A";
            Sample.path_only "B"];
         RestoreArgs.persistent := true |}
      Sample.initial
    = toggleEnabledDisplays (Sample.addon Sample.live_A_B)
        {| ToggleArgs.persistent := true;
           ToggleArgs.enable := Some enable;
           ToggleArgs.disable := Some disable |}
        (State.log_call Call_queryDisplayConfig Sample.initial)
    ∧ (exists rest,
         State.calls
           (restoreDisplayConfig (Sample.addon Sample.live_A_B) Base64.decode
              {| RestoreArgs.config :=
                   [Sample.stored "A"; Sample.stored "C"; Sample.path_only "A";
                    Sample.path_only "B"];
                 RestoreArgs.persistent := true |}
              Sample.initial).2
         = State.calls Sample.initial ++ Call_queryDisplayConfig :: rest
         ∧ no_native_restore rest)
    ∧ NoDup enable
    ∧ NoDup disable
    ∧ (forall p,
         p ∈ enable
         <-> p ∈ ["A"%string; "C"%string] ∧ p ∈ ["A"%string; "B"%string])
    ∧ (forall p,
         p ∈ disable
         <-> p ∈ ["A"%string; "B"%string] ∧ p ∈ ["A"%string; "B"%string]
             ∧ p ∉ ["A"%string; "C"%string])
    ∧ (forall p, p ∈ enable -> p ∉ disable)
    ∧ (forall p,
         p ∈ ["A"%string; "C"%string] -> p ∈ ["A"%string; "B"%string] ->
         (p ∉ disable) ∧ (p ∈ ["A"%string; "B"%string] -> p ∈ enable)).
Proof.
  apply (restoreDisplayConfig_fallback (Sample.addon Sample.live_A_B)
           Base64.decode
           {| RestoreArgs.config :=
                [Sample.stored "A"; Sample.stored "C"; Sample.path_only "A";
                 Sample.path_only "B"];
              RestoreArgs.persistent := true |}
           Sample.initial Sample.live_A_B).
  - reflexivity.
  - apply (bool_decide_unpack _). vm_compute. exact I.
Defined.

(** The first scenario of the specification: A and B live, A and C wanted
    enabled.  C is missing, so the toggle is called, with A to enable and
    nothing to disable. *)
Example restore_A_C_on_live_A_B :
  restoreDisplayConfig (Sample.addon Sample.live_A_B) Base64.decode
    {| RestoreArgs.config := [Sample.stored "A"; Sample.stored "C"];
       RestoreArgs.persistent := true |}
    Sample.initial
  = (Resolved tt,
     State.log_call
       (Call_toggleEnabledDisplays
          {| NativeToggleArgs.enable :=
               [{| ConfigId.adapterId := Sample.luid; ConfigId.id := 10 |}];
             NativeToggleArgs.disable := [];
             NativeToggleArgs.persistent := true |})
       (State.log_call Call_queryDisplayConfig
          (State.log_call Call_queryDisplayConfig Sample.initial))).
Proof. by vm_compute. Qed.

(** A path wanted both enabled and disabled is enabled; B, wanted
    disabled only, is disabled. *)
Example restore_enable_wins :
  restoreDisplayConfig (Sample.addon Sample.live_A_B) Base64.decode
    {| RestoreArgs.config :=
         [Sample.path_only "A"; Sample.path_only "B"; Sample.stored "A";
          Sample.stored "C"];
       RestoreArgs.persistent := false |}
    Sample.initial
  = (Resolved tt,
     State.log_call
       (Call_toggleEnabledDisplays
          {| NativeToggleArgs.enable :=
               [{| ConfigId.adapterId := Sample.luid; ConfigId.id := 10 |}];
             NativeToggleArgs.disable :=
               [{| ConfigId.adapterId := Sample.luid; ConfigId.id := 11 |}];
             NativeToggleArgs.persistent := false |})
       (State.log_call Call_queryDisplayConfig
          (State.log_call Call_queryDisplayConfig Sample.initial))).
Proof. by vm_compute. Qed.

(** A stored record without path buffer makes [Buffer.from] throw before
    any native restore. *)
Example restore_incomplete_record :
  restoreDisplayConfig (Sample.addon Sample.live_A) Base64.decode
    {| RestoreArgs.config :=
         [{| RestorationRecord.devicePath := "A";
             RestorationRecord.pathBuffer := None;
             RestorationRecord.sourceModeBuffer := None;
             RestorationRecord.targetModeBuffer := Some "Aw=="%string |}];
       RestoreArgs.persistent := true |}
    Sample.initial
  = (Rejected TypeError, State.log_call Call_queryDisplayConfig Sample.initial).
Proof. by vm_compute. Qed.

(** ** The change-notification cache *)

Section Cache.

Variable addon : Addon.t.
Variable listener_body : Listener -> CallbackArgs.t -> option JsError.

(** When no listener of the list throws, all are invoked in order and
    nothing but the log of invocations changes. *)
Lemma notify_all_return callbacks a s :
  Forall (fun callback => listener_body callback a = None) callbacks ->
  exists s',
    notify listener_body callbacks a s = (Resolved tt, s')
    ∧ State.calls s' = State.calls s
    ∧ State.currentDisplayConfig s' = State.currentDisplayConfig s
    ∧ State.displayChangeCallbacks s' = State.displayChangeCallbacks s
    ∧ State.notified s'
      = State.notified s ++ ((fun callback => (callback, a)) <$> callbacks).
Proof.
  intros Hquiet. revert s.
  induction Hquiet as [|callback callbacks Hcb _ IH]; intros s; simpl.
  - exists s. by rewrite app_nil_r.
  - rewrite Hcb.
    destruct (IH (State.log_notified callback a s))
      as (s' & Hrun & Hcalls & Hcur & Hcbs & Hlog).
    exists s'. split_and!; try done.
    rewrite Hlog. simpl. by rewrite <- app_assoc.
Qed.

End Cache.



(** A change pulse after which the query succeeds: the cache is replaced
    and both listeners receive the new configuration. *)
Example update_after_success :
  updateDisplayStateAndNotifyCallbacks (Sample.addon Sample.live_A_off)
    Sample.quiet_listener Sample.subscribed
  = (Resolved tt,
     {| State.calls := [Call_queryDisplayConfig];
        State.currentDisplayConfig := Some [Sample.entryA false None];
        State.displayChangeCallbacks := [7%nat; 9%nat];
        State.notified :=
          [(7%nat, {| CallbackArgs.err := None;
                      CallbackArgs.config := Some [Sample.entryA false None] |});
           (9%nat, {| CallbackArgs.err := None;
                      CallbackArgs.config := Some [Sample.entryA false None] |})]
     |}).
Proof. by vm_compute. Qed.

(** The first listener throws when it is handed the configuration: the
    loop of the [try] block ends there, and the [catch] block hands the
    thrown value to both listeners.  The second listener never sees the
    configuration, which is stored all the same. *)
Example update_with_throwing_listener :
  updateDisplayStateAndNotifyCallbacks (Sample.addon Sample.live_A_off)
    (Sample.picky_listener 7%nat) Sample.subscribed
  = (Resolved tt,
     {| State.calls := [Call_queryDisplayConfig];
        State.currentDisplayConfig := Some [Sample.entryA false None];
        State.displayChangeCallbacks := [7%nat; 9%nat];
        State.notified :=
          [(7%nat, {| CallbackArgs.err := None;
                      CallbackArgs.config := Some [Sample.entryA false None] |});
           (7%nat, {| CallbackArgs.err := Some (Thrown (JsString "boom"));
                      CallbackArgs.config := None |});
           (9%nat, {| CallbackArgs.err := Some (Thrown (JsString "boom"));
                      CallbackArgs.config := None |})]
     |}).
Proof. by vm_compute. Qed.

(** ** Further properties of the extractor *)

(** X1. When the native query does not hand over a configuration (its
    callback reports an error code, or the addon did not run), the
    extraction rejects, with the [Win32Error] of that code or with a
    [TypeError], and so do the three operations built on it: the snapshot,
    the toggle and the restore.  Each has made the query and no other
    native call. *)
Theorem failed_query_stops_every_operation
    (addon : Addon.t) (base64_encode : Buffer -> string)
    (base64_decode : string -> Buffer)
    (toggleArgs : ToggleArgs.t) (restoreArgs : RestoreArgs.t)
    (s : State.t) (e : JsError) :
  query_error (Addon.win32_queryDisplayConfig addon (State.calls s)) = Some e ->
  let failed := State.log_call Call_queryDisplayConfig s in
  extractDisplayConfig addon s = (Rejected e, failed)
  ∧ displayConfigForRestoration addon base64_encode s = (Rejected e, failed)
  ∧ toggleEnabledDisplays addon toggleArgs s = (Rejected e, failed)
  ∧ restoreDisplayConfig addon base64_decode restoreArgs s = (Rejected e, failed).
Proof.
  intros Hq failed.
  assert (extractDisplayConfig addon s = (Rejected e, failed)) as Hx.
  { unfold extractDisplayConfig, queryDisplayConfig, mbind, Async_bind.
    destruct (Addon.win32_queryDisplayConfig addon (State.calls s));
      simpl in Hq; by inversion Hq. }
  split_and!; [done| | |].
  - unfold displayConfigForRestoration, mbind, Async_bind. by rewrite Hx.
  - by rewrite toggleEnabledDisplays_run, Hx.
  - unfold restoreDisplayConfig, mbind, Async_bind. by rewrite Hx.
Qed.

Lemma failed_query_stops_every_operation_witness :
  extractDisplayConfig (Sample.failing_addon 1004) Sample.initial
  = (Rejected (Win32Error 1004),
     State.log_call Call_queryDisplayConfig Sample.initial)
  ∧ displayConfigForRestoration (Sample.failing_addon 1004) Base64.encode
      Sample.initial
    = (Rejected (Win32Error 1004),
       State.log_call Call_queryDisplayConfig Sample.initial)
  ∧ toggleEnabledDisplays (Sample.failing_addon 1004)
      {| ToggleArgs.persistent := true;
         ToggleArgs.enable := Some ["A"%string];
         ToggleArgs.disable := None |}
      Sample.initial
    = (Rejected (Win32Error 1004),
       State.log_call Call_queryDisplayConfig Sample.initial)
  ∧ restoreDisplayConfig (Sample.failing_addon 1004) Base64.decode
      {| RestoreArgs.config := [Sample.stored "A"];
         RestoreArgs.persistent := true |}
      Sample.initial
    = (Rejected (Win32Error 1004),
       State.log_call Call_queryDisplayConfig Sample.initial).
Proof.
  apply (failed_query_stops_every_operation (Sample.failing_addon 1004)
           Base64.encode Base64.decode
           {| ToggleArgs.persistent := true;
              ToggleArgs.enable := Some ["A"%string];
              ToggleArgs.disable := None |}
           {| RestoreArgs.config := [Sample.stored "A"];
              RestoreArgs.persistent := true |}
           Sample.initial (Win32Error 1004)).
  reflexivity.
Defined.

Lemma array_get_Some {A : Type} (arr : list A) (idx : option Z) (x : A) :
  array_get arr idx = Some x
  <-> exists i, idx = Some i ∧ 0 <= i ∧ arr !! Z.to_nat i = Some x.
Proof.
  split.
  - destruct idx as [i|]; simpl; [|done].
    destruct (Z.ltb_spec i 0); simpl; [done|].
    destruct (Z.leb_spec (Z.of_nat (length arr)) i); [done|]. eauto.
  - intros (i & -> & Hi & Hx). by apply array_get_resolved.
Qed.

Lemma array_get_None {A : Type} (arr : list A) (idx : option Z) :
  array_get arr idx = None <-> index_unresolved arr idx.
Proof.
  split; [|apply array_get_unresolved].
  destruct idx as [i|]; simpl; [|done].
  destruct (Z.ltb_spec i 0); simpl; [by left|].
  destruct (Z.leb_spec (Z.of_nat (length arr)) i); [by right|].
  intros Hnone. apply lookup_ge_None in Hnone. lia.
Qed.

(** The test [flags & (1 === 1)] reads bit 0 of the flags. *)
Lemma active_bit_odd (flags : Z) :
  negb (Z.land (ToInt32 flags) (ToInt32 (bool_to_number (1 =? 1))) =? 0)
  = Z.odd flags.
Proof.
  change (ToInt32 (bool_to_number (1 =? 1))) with (Z.ones 1).
  rewrite Z.land_ones by lia. rewrite Zodd_mod.
  unfold ToInt32. change (2 ^ 1) with 2. change (2 ^ 31) with 2147483648.
  change (2 ^ 32) with 4294967296.
  assert (((flags + 2147483648) mod 4294967296 - 2147483648) mod 2
          = flags mod 2) as -> by (Z.div_mod_to_equations; lia).
  assert (flags mod 2 = 0 ∨ flags mod 2 = 1) as [->| ->]
    by (Z.div_mod_to_equations; lia); reflexivity.
Qed.

(** What one iteration pushes, field by field. *)
Lemma extractDisplayConfig_path_Some config p e :
  extractDisplayConfig_path config p = Some e ->
  exists n sourceMode,
    find (name_matches
            (TargetInfo.adapterId (PathInfo.targetInfo (value p)))
            (TargetInfo.id (PathInfo.targetInfo (value p)))
            (TargetInfo.outputTechnology (PathInfo.targetInfo (value p))))
         (DisplayConfig.nameArray config) = Some n
    ∧ array_get (DisplayConfig.modeArray config)
                (SourceInfo.modeInfoIdx (PathInfo.sourceInfo (value p)))
      = Some sourceMode
    ∧ ModeInfo.infoType (value sourceMode) = source
    ∧ Entry.displayName e = Name.monitorFriendlyDeviceName n
    ∧ Entry.devicePath e = Name.monitorDevicePath n
    ∧ Entry.sourceConfigId e
      = {| ConfigId.adapterId :=
             SourceInfo.adapterId (PathInfo.sourceInfo (value p));
           ConfigId.id := SourceInfo.id (PathInfo.sourceInfo (value p)) |}
    ∧ Entry.targetConfigId e
      = {| ConfigId.adapterId :=
             TargetInfo.adapterId (PathInfo.targetInfo (value p));
           ConfigId.id := TargetInfo.id (PathInfo.targetInfo (value p)) |}
    ∧ Entry.outputTechnology e
      = TargetInfo.outputTechnology (PathInfo.targetInfo (value p))
    ∧ Entry.pathBuffer e = buffer p
    ∧ Entry.sourceModeBuffer e = buffer sourceMode
    ∧ Entry.sourceMode e = ModeInfo.sourceMode (value sourceMode)
    ∧ Entry.inUse e
      = match array_get (DisplayConfig.modeArray config)
                        (TargetInfo.modeInfoIdx
                           (PathInfo.targetInfo (value p))) with
        | None => false
        | Some _ => Z.odd (PathInfo.flags (value p))
        end
    ∧ Entry.targetModeBuffer e
      = match array_get (DisplayConfig.modeArray config)
                        (TargetInfo.modeInfoIdx
                           (PathInfo.targetInfo (value p))) with
        | Some targetMode =>
          if InfoType_eqb (ModeInfo.infoType (value targetMode)) target
          then Some (buffer targetMode) else None
        | None => None
        end
    ∧ (Entry.targetVideoSignalInfo e = None
       <-> Entry.targetModeBuffer e = None).
Proof.
  unfold extractDisplayConfig_path. cbv zeta. rewrite active_bit_odd.
  destruct (find _ _) as [n|]; [|done].
  destruct (array_get _ (SourceInfo.modeInfoIdx _)) as [sm|]; [|done].
  destruct (ModeInfo.infoType (value sm)) eqn:Htag; simpl; try done.
  intros [= <-]. exists n, sm.
  destruct (array_get _ (TargetInfo.modeInfoIdx _)) as [tm|]; simpl.
  - destruct (InfoType_eqb (ModeInfo.infoType (value tm)) target); simpl;
      split_and!; try done; by destruct (Z.odd _).
  - split_and!; done.
Qed.

(** X2. Every entry of the extraction comes from a path of [pathArray]
    and from a name record of [nameArray] that satisfies the join condition
    with that path: its device path and display name are those of the name
    record, its config ids and path buffer those of the path.  So no entry
    has an empty device path or a falsy output technology. *)
Theorem extracted_entry_has_path_and_name
    (config : DisplayConfig.t) (e : Entry.t) :
  e ∈ extractDisplayConfig_loop config ->
  Entry.devicePath e ≠ EmptyString
  ∧ truthy (Entry.outputTechnology e) = true
  ∧ exists p n,
      p ∈ DisplayConfig.pathArray config
      ∧ n ∈ DisplayConfig.nameArray config
      ∧ join_condition (value p) n
      ∧ Entry.devicePath e = Name.monitorDevicePath n
      ∧ Entry.displayName e = Name.monitorFriendlyDeviceName n
      ∧ Entry.sourceConfigId e
        = {| ConfigId.adapterId :=
               SourceInfo.adapterId (PathInfo.sourceInfo (value p));
             ConfigId.id := SourceInfo.id (PathInfo.sourceInfo (value p)) |}
      ∧ Entry.targetConfigId e
        = {| ConfigId.adapterId :=
               TargetInfo.adapterId (PathInfo.targetInfo (value p));
             ConfigId.id := TargetInfo.id (PathInfo.targetInfo (value p)) |}
      ∧ Entry.pathBuffer e = buffer p.
Proof.
  rewrite extractDisplayConfig_loop_entries. unfold entries_of.
  intros (p & Hp & He)%list_elem_of_omap.
  apply extractDisplayConfig_path_Some in He
    as (n & sm & Hfind & _ & _ & Hname & Hpath & Hsrc & Htgt & Hot & Hbuf & _).
  apply find_some in Hfind as [Hn Hmatch].
  apply name_matches_join in Hmatch.
  pose proof Hmatch as (_ & _ & _ & _ & Htruthy & Hnonempty).
  split_and!.
  - by rewrite Hpath.
  - by rewrite Hot.
  - exists p, n. split_and!; try done. by apply list_elem_of_In.
Qed.

Lemma extracted_entry_has_path_and_name_witness :
  Entry.devicePath Sample.entryB ≠ EmptyString
  ∧ truthy (Entry.outputTechnology Sample.entryB) = true
  ∧ exists p n,
      p ∈ DisplayConfig.pathArray Sample.live_A_B
      ∧ n ∈ DisplayConfig.nameArray Sample.live_A_B
      ∧ join_condition (value p) n
      ∧ Entry.devicePath Sample.entryB = Name.monitorDevicePath n
      ∧ Entry.displayName Sample.entryB = Name.monitorFriendlyDeviceName n
      ∧ Entry.sourceConfigId Sample.entryB
        = {| ConfigId.adapterId :=
               SourceInfo.adapterId (PathInfo.sourceInfo (value p));
             ConfigId.id := SourceInfo.id (PathInfo.sourceInfo (value p)) |}
      ∧ Entry.targetConfigId Sample.entryB
        = {| ConfigId.adapterId :=
               TargetInfo.adapterId (PathInfo.targetInfo (value p));
             ConfigId.id := TargetInfo.id (PathInfo.targetInfo (value p)) |}
      ∧ Entry.pathBuffer Sample.entryB = buffer p.
Proof.
  apply (extracted_entry_has_path_and_name Sample.live_A_B Sample.entryB).
  vm_compute. constructor. constructor.
Defined.

(** X3. For the entry that a path yields: [inUse] is true exactly when
    bit 0 of the flags of the path is set and its target mode index
    addresses a mode record (whatever the tag of that record);
    [targetModeBuffer] is the buffer of the record at the target mode index
    exactly when that record is tagged [target], and is absent otherwise;
    [targetVideoSignalInfo] is absent exactly when [targetModeBuffer] is.
    So an entry can be in use without target mode buffer: when its target
    mode index addresses a record with another tag. *)
Theorem entry_inUse_and_target_fields
    (config : DisplayConfig.t) (p : Raw PathInfo.t) (e : Entry.t) :
  extractDisplayConfig_path config p = Some e ->
  (Entry.inUse e = true
   <-> Z.testbit (PathInfo.flags (value p)) 0 = true
       ∧ ¬ index_unresolved
             (DisplayConfig.modeArray config)
             (TargetInfo.modeInfoIdx (PathInfo.targetInfo (value p))))
  ∧ (forall b,
       Entry.targetModeBuffer e = Some b
       <-> exists i m,
             TargetInfo.modeInfoIdx (PathInfo.targetInfo (value p)) = Some i
             ∧ 0 <= i
             ∧ DisplayConfig.modeArray config !! Z.to_nat i = Some m
             ∧ ModeInfo.infoType (value m) = target
             ∧ buffer m = b)
  ∧ (Entry.targetVideoSignalInfo e = None
     <-> Entry.targetModeBuffer e = None).
Proof.
  intros He.
  apply extractDisplayConfig_path_Some in He
    as (n & sm & _ & _ & _ & _ & _ & _ & _ & _ & _ & _ & _ & Huse & Hbuf & Hvsi).
  rewrite Z.bit0_odd, <- array_get_None.
  destruct (array_get _ (TargetInfo.modeInfoIdx _)) as [tm|] eqn:Htm.
  - apply array_get_Some in Htm as (i & Hi & Hpos & Hm).
    split_and!.
    + rewrite Huse. split; [by intros ->|by intros [-> _]].
    + intros b. rewrite Hbuf. split.
      * destruct (ModeInfo.infoType (value tm)) eqn:Htag; simpl; try done.
        intros [= <-]. by exists i, tm.
      * intros (i' & m & Hi' & _ & Hm' & Htag & <-).
        rewrite Hi in Hi'. injection Hi' as <-.
        rewrite Hm in Hm'. injection Hm' as <-. by rewrite Htag.
    + done.
  - apply array_get_None in Htm. split_and!.
    + rewrite Huse. split; [done|by intros [_ Hres]].
    + intros b. rewrite Hbuf. split; [done|].
      intros (i & m & Hi & Hpos & Hm & _).
      assert (array_get (DisplayConfig.modeArray config)
                (TargetInfo.modeInfoIdx (PathInfo.targetInfo (value p)))
              = Some m) as Hget by (apply array_get_Some; eauto).
      apply array_get_None in Htm. by rewrite Htm in Hget.
    + done.
Qed.

Lemma entry_inUse_and_target_fields_witness :
  (Entry.inUse (Sample.entryA true None) = true
   <-> Z.testbit (PathInfo.flags (value Sample.pathA_wrong_target)) 0 = true
       ∧ ¬ index_unresolved Sample.modes (Some 2))
  ∧ (forall b,
       Entry.targetModeBuffer (Sample.entryA true None) = Some b
       <-> exists i m,
             Some 2 = Some i
             ∧ 0 <= i
             ∧ Sample.modes !! Z.to_nat i = Some m
             ∧ ModeInfo.infoType (value m) = target
             ∧ buffer m = b)
  ∧ (Entry.targetVideoSignalInfo (Sample.entryA true None) = None
     <-> Entry.targetModeBuffer (Sample.entryA true None) = None).
Proof.
  apply (entry_inUse_and_target_fields
           (Sample.live_of [Sample.pathA_wrong_target] Sample.names)
           Sample.pathA_wrong_target (Sample.entryA true None)).
  reflexivity.
Defined.

Lemma find_first_match {A : Type} (f : A -> bool) (before after : list A)
    (x : A) :
  Forall (fun y => f y = false) before -> f x = true ->
  find f (before ++ x :: after) = Some x.
Proof.
  induction 1 as [|y before Hy _ IH]; intros Hx; simpl.
  - by rewrite Hx.
  - rewrite Hy. by apply IH.
Qed.

(** X4. When several name records satisfy the join condition with a path,
    the first of them in [nameArray] names the entry: the entry has its
    device path and its display name, the later records are not looked
    at. *)
Theorem first_matching_name_names_the_entry
    (config : DisplayConfig.t) (p : Raw PathInfo.t) (e : Entry.t)
    (before after : list Name.t) (n : Name.t) :
  DisplayConfig.nameArray config = before ++ n :: after ->
  Forall (fun n' => ¬ join_condition (value p) n') before ->
  join_condition (value p) n ->
  extractDisplayConfig_path config p = Some e ->
  Entry.devicePath e = Name.monitorDevicePath n
  ∧ Entry.displayName e = Name.monitorFriendlyDeviceName n.
Proof.
  intros Hnames Hbefore Hn He.
  apply extractDisplayConfig_path_Some in He
    as (n0 & sm & Hfind & _ & _ & Hname & Hpath & _).
  rewrite Hnames, (find_first_match _ before after n) in Hfind.
  - injection Hfind as <-. done.
  - eapply Forall_impl; [exact Hbefore|]. intros n' Hn'. simpl in Hn'.
    destruct (name_matches _ _ _ n') eqn:Hm; [|done].
    by apply name_matches_join in Hm.
  - by apply name_matches_join.
Qed.

Lemma first_matching_name_names_the_entry_witness :
  Entry.devicePath Sample.entryA_first = "A1"%string
  ∧ Entry.displayName Sample.entryA_first = "First"%string.
Proof.
  apply (first_matching_name_names_the_entry
           (Sample.live_of [Sample.pathA] Sample.names_twice) Sample.pathA
           Sample.entryA_first
           [Sample.name 11 Sample.hdmi "Monitor B" "B"]
           [Sample.name 10 Sample.dvi "Second" "A2"]
           (Sample.name 10 Sample.hdmi "First" "A1")).
  - reflexivity.
  - apply (bool_decide_unpack _). vm_compute. exact I.
  - apply (bool_decide_unpack _). vm_compute. exact I.
  - reflexivity.
Defined.

(** ** Further properties of the toggle executor and of [setSubtract] *)

(** [setSubtract] is the set difference: its result holds, once each,
    the members of [left] that are not members of [right]. *)
Lemma setSubtract_is_difference (left right : gset string) :
  NoDup (setSubtract left right)
  ∧ forall x, x ∈ setSubtract left right <-> x ∈ left ∧ x ∉ right.
Proof.
  unfold setSubtract. split.
  - apply NoDup_elements.
  - intros x. rewrite elem_of_elements, elem_of_filter. tauto.
Qed.

Lemma ids_matching_none paths live :
  no_live_match paths live -> ids_matching paths live = [].
Proof.
  destruct paths as [paths|]; simpl; [|done].
  induction 1 as [|e live He _ IH]; [done|].
  rewrite filter_cons. by destruct (decide _).
Qed.

(** X5. A toggle that names no live device path (its [enable] and
    [disable] hold none, or are not arrays) is not short-cut: after the
    query it still calls the native toggle, once, with two empty id lists,
    and its promise follows the status of that call. *)
Theorem toggle_without_live_match_calls_native
    (addon : Addon.t) (args : ToggleArgs.t) (s : State.t)
    (config : DisplayConfig.t) :
  Addon.win32_queryDisplayConfig addon (State.calls s) = QuerySucceeded config ->
  no_live_match (ToggleArgs.enable args)
                (entries_of config (DisplayConfig.pathArray config)) ->
  no_live_match (ToggleArgs.disable args)
                (entries_of config (DisplayConfig.pathArray config)) ->
  let queried := State.log_call Call_queryDisplayConfig s in
  let native :=
    {| NativeToggleArgs.enable := [];
       NativeToggleArgs.disable := [];
       NativeToggleArgs.persistent := ToggleArgs.persistent args |} in
  toggleEnabledDisplays addon args s
  = (status_completion
       (Addon.win32_toggleEnabledDisplays addon (State.calls queried) native),
     State.log_call (Call_toggleEnabledDisplays native) queried).
Proof.
  intros Hq Hen Hdis. cbv zeta.
  rewrite toggleEnabledDisplays_run.
  rewrite (extractDisplayConfig_resolved addon s config Hq).
  by rewrite (ids_matching_none _ _ Hen), (ids_matching_none _ _ Hdis).
Qed.

Lemma toggle_without_live_match_calls_native_witness :
  toggleEnabledDisplays (Sample.addon Sample.live_A_B)
    {| ToggleArgs.persistent := true;
       ToggleArgs.enable := Some ["C"%string];
       ToggleArgs.disable := None |}
    Sample.initial
  = (Resolved tt,
     State.log_call
       (Call_toggleEnabledDisplays
          {| NativeToggleArgs.enable := [];
             NativeToggleArgs.disable := [];
             NativeToggleArgs.persistent := true |})
       (State.log_call Call_queryDisplayConfig Sample.initial)).
Proof.
  apply (toggle_without_live_match_calls_native (Sample.addon Sample.live_A_B)
           {| ToggleArgs.persistent := true;
              ToggleArgs.enable := Some ["C"%string];
              ToggleArgs.disable := None |}
           Sample.initial Sample.live_A_B).
  - reflexivity.
  - apply (bool_decide_unpack _). vm_compute. exact I.
  - apply (bool_decide_unpack _). vm_compute. exact I.
Defined.

(** ** Further properties of the reconciliation engine *)

Section Exact.

Variable addon : Addon.t.
Variable base64_decode : string -> Buffer.

(** The exact restore, whatever the request items are. *)
Lemma restoreDisplayConfig_exact_run args s config :
  Addon.win32_queryDisplayConfig addon (State.calls s) = QuerySucceeded config ->
  Forall
    (fun p =>
       p ∈ Entry.devicePath
             <$> entries_of config (DisplayConfig.pathArray config))
    (desired_enabled (RestoreArgs.config args)) ->
  restoreDisplayConfig addon base64_decode args s
  = match coerce_loop base64_decode
            (devicePathLookupForEnabledDisplayConfig
               (entries_of config (DisplayConfig.pathArray config)))
            (RestoreArgs.config args) with
    | Rejected e => (Rejected e, State.log_call Call_queryDisplayConfig s)
    | Resolved coercedState =>
      win32_restoreDisplayConfig addon coercedState
        (RestoreArgs.persistent args)
        (State.log_call Call_queryDisplayConfig s)
    end.
Proof.
  intros Hq Hlive. unfold restoreDisplayConfig, mbind, Async_bind.
  rewrite (extractDisplayConfig_resolved addon s config Hq).
  fold (desired_enabled (RestoreArgs.config args)).
  rewrite (proj2 (missingEnabled_empty _ _) Hlive).
  by destruct (coerce_loop _ _ _).
Qed.

Lemma coerce_fold_rejected pathLookup config e :
  fold_left
    (fun acc entry =>
       match acc with
       | Resolved coercedState =>
         coerce_step base64_decode pathLookup coercedState entry
       | Rejected e => Rejected e
       end)
    config (Rejected e)
  = Rejected e.
Proof. induction config as [|item config IH]; simpl; [done|apply IH]. Qed.

Lemma coerce_step_outcome pathLookup coercedState item :
  (exists coercedState',
     coerce_step base64_decode pathLookup coercedState item
     = Resolved coercedState')
  ∨ coerce_step base64_decode pathLookup coercedState item = Rejected TypeError.
Proof.
  unfold coerce_step. case_bool_decide; [eauto|].
  destruct (pathLookup !! _); [|eauto].
  destruct (RestorationRecord.pathBuffer item); simpl; [|eauto].
  destruct (RestorationRecord.sourceModeBuffer item); simpl; [|eauto].
  destruct (RestorationRecord.targetModeBuffer item); simpl; eauto.
Qed.

Lemma coerce_step_incomplete pathLookup coercedState item :
  record_incomplete pathLookup item ->
  coerce_step base64_decode pathLookup coercedState item = Rejected TypeError.
Proof.
  intros (Htgt & Hlive & Hmissing). unfold coerce_step.
  rewrite bool_decide_eq_false_2 by done.
  destruct (pathLookup !! _); [|done].
  destruct Hmissing as [-> | Hsrc]; [done|].
  destruct (RestorationRecord.pathBuffer item); simpl; [|done].
  by rewrite Hsrc.
Qed.

Lemma coerce_fold_incomplete pathLookup config coercedState :
  Exists (record_incomplete pathLookup) config ->
  fold_left
    (fun acc entry =>
       match acc with
       | Resolved coercedState =>
         coerce_step base64_decode pathLookup coercedState entry
       | Rejected e => Rejected e
       end)
    config (Resolved coercedState)
  = Rejected TypeError.
Proof.
  intros Hbad. revert coercedState.
  induction Hbad as [item config Hitem|item config _ IH]; intros coercedState;
    simpl.
  - rewrite (coerce_step_incomplete _ _ _ Hitem). apply coerce_fold_rejected.
  - destruct (coerce_step_outcome pathLookup coercedState item)
      as [[coercedState' ->]| ->]; [apply IH|apply coerce_fold_rejected].
Qed.

Lemma coerce_fold_filter pathLookup config acc :
  fold_left
    (fun acc entry =>
       match acc with
       | Resolved coercedState =>
         coerce_step base64_decode pathLookup coercedState entry
       | Rejected e => Rejected e
       end)
    (filter (fun r => RestorationRecord.targetModeBuffer r ≠ None) config) acc
  = fold_left
      (fun acc entry =>
         match acc with
         | Resolved coercedState =>
           coerce_step base64_decode pathLookup coercedState entry
         | Rejected e => Rejected e
         end)
      config acc.
Proof.
  revert acc. induction config as [|item config IH]; intros acc; [done|].
  rewrite filter_cons. destruct (decide _) as [Hkeep|Hdrop]; simpl.
  - apply IH.
  - rewrite IH. f_equal. destruct acc as [coercedState|e]; [|done].
    unfold coerce_step. rewrite bool_decide_eq_true_2; [done|].
    by destruct (RestorationRecord.targetModeBuffer item);
      [destruct Hdrop|].
Qed.

End Exact.

(** X6. A request that wants nothing enabled (no item has a target mode
    buffer; the empty request is one) never reaches the toggle, whatever
    device paths it wants disabled: after the query the native restore is
    called with an empty array, and nothing is disabled by
    [index.js]. *)
Theorem restore_without_enabled_item_calls_native_with_nothing
    (addon : Addon.t) (base64_decode : string -> Buffer)
    (args : RestoreArgs.t) (s : State.t) (config : DisplayConfig.t) :
  Addon.win32_queryDisplayConfig addon (State.calls s) = QuerySucceeded config ->
  Forall (fun r => RestorationRecord.targetModeBuffer r = None)
         (RestoreArgs.config args) ->
  let queried := State.log_call Call_queryDisplayConfig s in
  restoreDisplayConfig addon base64_decode args s
  = (status_completion
       (Addon.win32_restoreDisplayConfig addon (State.calls queried) []
          (RestoreArgs.persistent args)),
     State.log_call (Call_restoreDisplayConfig [] (RestoreArgs.persistent args))
                    queried).
Proof.
  intros Hq Hnone. cbv zeta.
  assert (desired_enabled (RestoreArgs.config args) = []) as Hwanted.
  { unfold desired_enabled.
    induction Hnone as [|r l Hr _ IH]; [done|].
    rewrite filter_cons. by destruct (decide _). }
  rewrite (restoreDisplayConfig_exact_run addon base64_decode args s config Hq)
    by (rewrite Hwanted; constructor).
  rewrite coerce_loop_records.
  - assert (omap (coerced_record base64_decode
                    (devicePathLookupForEnabledDisplayConfig
                       (entries_of config (DisplayConfig.pathArray config))))
                 (RestoreArgs.config args) = []) as ->; [|done].
    induction Hnone as [|r l Hr _ IH]; [done|]. simpl.
    unfold coerced_record at 1. rewrite Hr. simpl. apply IH.
    unfold desired_enabled in *. rewrite filter_cons in Hwanted.
    by destruct (decide _).
  - eapply Forall_impl; [exact Hnone|]. by intros r Hr Htgt.
Qed.

Lemma restore_without_enabled_item_calls_native_with_nothing_witness :
  restoreDisplayConfig (Sample.addon Sample.live_A_B) Base64.decode
    {| RestoreArgs.config := [Sample.path_only "A"; Sample.path_only "C"];
       RestoreArgs.persistent := true |}
    Sample.initial
  = (Resolved tt,
     State.log_call (Call_restoreDisplayConfig [] true)
       (State.log_call Call_queryDisplayConfig Sample.initial)).
Proof.
  apply (restore_without_enabled_item_calls_native_with_nothing
           (Sample.addon Sample.live_A_B) Base64.decode
           {| RestoreArgs.config := [Sample.path_only "A"; Sample.path_only "C"];
              RestoreArgs.persistent := true |}
           Sample.initial Sample.live_A_B).
  - reflexivity.
  - apply (bool_decide_unpack _). vm_compute. exact I.
Defined.

(** X7. In the exact restore the items without target mode buffer play no
    part: when every device path wanted enabled is live, restoring a
    request and restoring it without its items that only name a device
    path do the same, call for call. *)
Theorem exact_restore_ignores_items_without_target
    (addon : Addon.t) (base64_decode : string -> Buffer)
    (args : RestoreArgs.t) (s : State.t) (config : DisplayConfig.t) :
  Addon.win32_queryDisplayConfig addon (State.calls s) = QuerySucceeded config ->
  Forall
    (fun p =>
       p ∈ Entry.devicePath
             <$> entries_of config (DisplayConfig.pathArray config))
    (desired_enabled (RestoreArgs.config args)) ->
  restoreDisplayConfig addon base64_decode args s
  = restoreDisplayConfig addon base64_decode
      {| RestoreArgs.config :=
           filter (fun r => RestorationRecord.targetModeBuffer r ≠ None)
                  (RestoreArgs.config args);
         RestoreArgs.persistent := RestoreArgs.persistent args |}
      s.
Proof.
  intros Hq Hlive.
  rewrite (restoreDisplayConfig_exact_run addon base64_decode args s config Hq
             Hlive).
  rewrite (restoreDisplayConfig_exact_run addon base64_decode _ s config Hq).
  - simpl. unfold coerce_loop. by rewrite coerce_fold_filter.
  - simpl. unfold desired_enabled in *.
    by rewrite list_filter_filter_l.
Qed.

Lemma exact_restore_ignores_items_without_target_witness :
  restoreDisplayConfig (Sample.addon Sample.live_A_B) Base64.decode
    {| RestoreArgs.config :=
         [Sample.path_only "B"; Sample.stored "A"; Sample.path_only "C"];
       RestoreArgs.persistent := true |}
    Sample.initial
  = restoreDisplayConfig (Sample.addon Sample.live_A_B) Base64.decode
      {| RestoreArgs.config :=
           filter (fun r => RestorationRecord.targetModeBuffer r ≠ None)
                  [Sample.path_only "B"; Sample.stored "A";
                   Sample.path_only "C"];
         RestoreArgs.persistent := true |}
      Sample.initial.
Proof.
  apply (exact_restore_ignores_items_without_target
           (Sample.addon Sample.live_A_B) Base64.decode
           {| RestoreArgs.config :=
                [Sample.path_only "B"; Sample.stored "A"; Sample.path_only "C"];
              RestoreArgs.persistent := true |}
           Sample.initial Sample.live_A_B).
  - reflexivity.
  - apply (bool_decide_unpack _). vm_compute. exact I.
Defined.

(** X8. In the exact restore, a request item that has a target mode
    buffer and a live entry in the lookup but lacks the path buffer or the
    source mode buffer makes [Buffer.from] throw: the restore rejects with
    a [TypeError] after the query, and the native restore is not called,
    not even for the complete items before it. *)
Theorem exact_restore_rejects_incomplete_record
    (addon : Addon.t) (base64_decode : string -> Buffer)
    (args : RestoreArgs.t) (s : State.t) (config : DisplayConfig.t) :
  Addon.win32_queryDisplayConfig addon (State.calls s) = QuerySucceeded config ->
  Forall
    (fun p =>
       p ∈ Entry.devicePath
             <$> entries_of config (DisplayConfig.pathArray config))
    (desired_enabled (RestoreArgs.config args)) ->
  Exists
    (record_incomplete
       (devicePathLookupForEnabledDisplayConfig
          (entries_of config (DisplayConfig.pathArray config))))
    (RestoreArgs.config args) ->
  restoreDisplayConfig addon base64_decode args s
  = (Rejected TypeError, State.log_call Call_queryDisplayConfig s).
Proof.
  intros Hq Hlive Hbad.
  rewrite (restoreDisplayConfig_exact_run addon base64_decode args s config Hq
             Hlive).
  unfold coerce_loop. by rewrite coerce_fold_incomplete.
Qed.

Lemma exact_restore_rejects_incomplete_record_witness :
  restoreDisplayConfig (Sample.addon Sample.live_A_B) Base64.decode
    {| RestoreArgs.config :=
         [Sample.stored "A";
          {| RestorationRecord.devicePath := "B";
             RestorationRecord.pathBuffer := Some "Cw=="%string;
             RestorationRecord.sourceModeBuffer := None;
             RestorationRecord.targetModeBuffer := Some "BQYH"%string |}];
       RestoreArgs.persistent := true |}
    Sample.initial
  = (Rejected TypeError, State.log_call Call_queryDisplayConfig Sample.initial).
Proof.
  apply (exact_restore_rejects_incomplete_record
           (Sample.addon Sample.live_A_B) Base64.decode
           {| RestoreArgs.config :=
                [Sample.stored "A";
                 {| RestorationRecord.devicePath := "B";
                    RestorationRecord.pathBuffer := Some "Cw=="%string;
                    RestorationRecord.sourceModeBuffer := None;
                    RestorationRecord.targetModeBuffer := Some "BQYH"%string |}];
              RestoreArgs.persistent := true |}
           Sample.initial Sample.live_A_B).
  - reflexivity.
  - apply (bool_decide_unpack _). vm_compute. exact I.
  - apply (bool_decide_unpack _). vm_compute. exact I.
Defined.





(** The two lists of the fallback, whatever the request. *)
Lemma restoreDisplayConfig_fallback_run
    (addon : Addon.t) (base64_decode : string -> Buffer)
    (args : RestoreArgs.t) (s : State.t) (config : DisplayConfig.t) :
  Addon.win32_queryDisplayConfig addon (State.calls s) = QuerySucceeded config ->
  Exists
    (fun p =>
       p ∉ Entry.devicePath
             <$> entries_of config (DisplayConfig.pathArray config))
    (desired_enabled (RestoreArgs.config args)) ->
  exists enable disable : list string,
    restoreDisplayConfig addon base64_decode args s
    = toggleEnabledDisplays addon
        {| ToggleArgs.persistent := RestoreArgs.persistent args;
           ToggleArgs.enable := Some enable;
           ToggleArgs.disable := Some disable |}
        (State.log_call Call_queryDisplayConfig s)
    ∧ (forall p,
         p ∈ enable
         <-> p ∈ desired_enabled (RestoreArgs.config args)
             ∧ p ∈ Entry.devicePath
                     <$> entries_of config (DisplayConfig.pathArray config))
    ∧ (forall p,
         p ∈ disable
         <-> p ∈ desired_disabled (RestoreArgs.config args)
             ∧ p ∈ Entry.devicePath
                     <$> entries_of config (DisplayConfig.pathArray config)
             ∧ p ∉ desired_enabled (RestoreArgs.config args)).
Proof.
  intros Hq Hmissing.
  set (live := Entry.devicePath
                 <$> entries_of config (DisplayConfig.pathArray config)) in *.
  set (wanted_on := desired_enabled (RestoreArgs.config args)) in *.
  set (wanted_off := desired_disabled (RestoreArgs.config args)) in *.
  destruct (toggle_pass (list_to_set live) wanted_on ∅) as [seen1 enable]
    eqn:Hpass1.
  destruct (toggle_pass (list_to_set live) wanted_off seen1) as [seen2 disable]
    eqn:Hpass2.
  exists enable, disable. split.
  - unfold restoreDisplayConfig, mbind, Async_bind.
    rewrite (extractDisplayConfig_resolved addon s config Hq).
    fold (desired_enabled (RestoreArgs.config args)).
    fold (desired_disabled (RestoreArgs.config args)).
    fold live wanted_on wanted_off.
    destruct (length (setSubtract (list_to_set wanted_on) (list_to_set live))
              =? 0)%nat eqn:Hnone.
    + apply missingEnabled_empty in Hnone.
      apply Exists_exists in Hmissing as (p & Hp & Hout).
      rewrite Forall_forall in Hnone. by destruct (Hout (Hnone p Hp)).
    + by rewrite Hpass1, Hpass2.
  - apply toggle_pass_spec in Hpass1 as (-> & _ & Hen).
    apply toggle_pass_spec in Hpass2 as (_ & _ & Hdis).
    assert (forall p, p ∈ enable <-> p ∈ wanted_on ∧ p ∈ live) as Hen'.
    { intros p. rewrite Hen, elem_of_list_to_set. set_solver. }
    split; [done|].
    intros p. rewrite Hdis, elem_of_union, !elem_of_list_to_set, Hen'.
    set_solver.
Qed.

(** X10. The fallback, end to end.  When a device path wanted enabled is
    missing from the first extraction, the two lists are resolved against
    a second extraction, made by the toggle: the native toggle receives the
    target config ids of the entries of the second extraction, in its
    order, whose device path was live at the first extraction and is wanted
    enabled, respectively wanted disabled and not wanted enabled.  The call
    log is the two queries and the native toggle. *)
Theorem fallback_toggles_entries_of_second_extraction
    (addon : Addon.t) (base64_decode : string -> Buffer)
    (args : RestoreArgs.t) (s : State.t) (config config2 : DisplayConfig.t) :
  Addon.win32_queryDisplayConfig addon (State.calls s) = QuerySucceeded config ->
  Addon.win32_queryDisplayConfig addon
    (State.calls s ++ [Call_queryDisplayConfig]) = QuerySucceeded config2 ->
  Exists
    (fun p =>
       p ∉ Entry.devicePath
             <$> entries_of config (DisplayConfig.pathArray config))
    (desired_enabled (RestoreArgs.config args)) ->
  let live :=
    Entry.devicePath <$> entries_of config (DisplayConfig.pathArray config) in
  let live2 := entries_of config2 (DisplayConfig.pathArray config2) in
  let wanted_on := desired_enabled (RestoreArgs.config args) in
  let wanted_off := desired_disabled (RestoreArgs.config args) in
  let queried :=
    State.log_call Call_queryDisplayConfig
      (State.log_call Call_queryDisplayConfig s) in
  let native :=
    {| NativeToggleArgs.enable :=
         Entry.targetConfigId
           <$> filter (fun e => Entry.devicePath e ∈ wanted_on
                                ∧ Entry.devicePath e ∈ live) live2;
       NativeToggleArgs.disable :=
         Entry.targetConfigId
           <$> filter (fun e => Entry.devicePath e ∈ wanted_off
                                ∧ Entry.devicePath e ∈ live
                                ∧ Entry.devicePath e ∉ wanted_on) live2;
       NativeToggleArgs.persistent := RestoreArgs.persistent args |} in
  restoreDisplayConfig addon base64_decode args s
  = (status_completion
       (Addon.win32_toggleEnabledDisplays addon (State.calls queried) native),
     State.log_call (Call_toggleEnabledDisplays native) queried).
Proof.
  intros Hq Hq2 Hmissing. cbv zeta.
  destruct (restoreDisplayConfig_fallback_run addon base64_decode args s config
              Hq Hmissing) as (enable & disable & -> & Hen & Hdis).
  rewrite toggleEnabledDisplays_run.
  rewrite (extractDisplayConfig_resolved addon
             (State.log_call Call_queryDisplayConfig s) config2 Hq2).
  simpl.
  rewrite (list_filter_iff
             (fun e => Entry.devicePath e ∈ enable)
             (fun e => Entry.devicePath e ∈ desired_enabled (RestoreArgs.config args)
                       ∧ Entry.devicePath e
                         ∈ Entry.devicePath
                             <$> entries_of config
                                   (DisplayConfig.pathArray config)))
    by (intros e; apply Hen).
  rewrite (list_filter_iff
             (fun e => Entry.devicePath e ∈ disable)
             (fun e => Entry.devicePath e
                         ∈ desired_disabled (RestoreArgs.config args)
                       ∧ Entry.devicePath e
                         ∈ Entry.devicePath
                             <$> entries_of config
                                   (DisplayConfig.pathArray config)
                       ∧ Entry.devicePath e
                         ∉ desired_enabled (RestoreArgs.config args)))
    by (intros e; apply Hdis).
  reflexivity.
Qed.

Lemma fallback_toggles_entries_of_second_extraction_witness :
  restoreDisplayConfig (Sample.addon Sample.live_A_B) Base64.decode
    {| RestoreArgs.config :=
         [Sample.path_only "B"; Sample.path_only "A"; Sample.stored "C";
          Sample.stored "A"];
       RestoreArgs.persistent := true |}
    Sample.initial
  = (Resolved tt,
     State.log_call
       (Call_toggleEnabledDisplays
          {| NativeToggleArgs.enable :=
               [{| ConfigId.adapterId := Sample.luid; ConfigId.id := 10 |}];
             NativeToggleArgs.disable :=
               [{| ConfigId.adapterId := Sample.luid; ConfigId.id := 11 |}];
             NativeToggleArgs.persistent := true |})
       (State.log_call Call_queryDisplayConfig
          (State.log_call Call_queryDisplayConfig Sample.initial))).
Proof.
  apply (fallback_toggles_entries_of_second_extraction
           (Sample.addon Sample.live_A_B) Base64.decode
           {| RestoreArgs.config :=
                [Sample.path_only "B"; Sample.path_only "A"; Sample.stored "C";
                 Sample.stored "A"];
              RestoreArgs.persistent := true |}
           Sample.initial Sample.live_A_B Sample.live_A_B).
  - reflexivity.
  - reflexivity.
  - apply (bool_decide_unpack _). vm_compute. exact I.
Defined.

(** ** Further properties of the change-notification cache *)

Section Notification.

Variable addon : Addon.t.
Variable listener_body : Listener -> CallbackArgs.t -> option JsError.

(** A notification loop touches nothing but the log of invocations, and
    adds to it invocations of listeners of the list, in order. *)
Lemma notify_frame callbacks a s :
  State.calls (notify listener_body callbacks a s).2 = State.calls s
  ∧ State.currentDisplayConfig (notify listener_body callbacks a s).2
    = State.currentDisplayConfig s
  ∧ State.displayChangeCallbacks (notify listener_body callbacks a s).2
    = State.displayChangeCallbacks s
  ∧ exists invoked,
      invoked `prefix_of` callbacks
      ∧ State.notified (notify listener_body callbacks a s).2
        = State.notified s ++ ((fun callback => (callback, a)) <$> invoked).
Proof.
  revert s. induction callbacks as [|callback callbacks IH]; intros s; simpl.
  - split_and!; try done. exists []. by rewrite app_nil_r.
  - destruct (listener_body callback a) as [e|].
    + simpl. split_and!; try done. exists [callback]. split; [|done].
      by apply prefix_cons, prefix_nil.
    + destruct (IH (State.log_notified callback a s))
        as (Hcalls & Hcur & Hcbs & invoked & Hpre & Hlog).
      split_and!; try done. exists (callback :: invoked).
      split; [by apply prefix_cons|].
      rewrite Hlog. simpl. by rewrite <- app_assoc.
Qed.

(** The loop up to the first listener that throws. *)
Lemma notify_throw before thrower after a e s :
  Forall (fun callback => listener_body callback a = None) before ->
  listener_body thrower a = Some e ->
  (notify listener_body (before ++ thrower :: after) a s).1 = Rejected e
  ∧ State.notified (notify listener_body (before ++ thrower :: after) a s).2
    = State.notified s
      ++ ((fun callback => (callback, a)) <$> before ++ [thrower]).
Proof.
  intros Hquiet Hthrow. revert s.
  induction Hquiet as [|callback before Hcb _ IH]; intros s; simpl.
  - by rewrite Hthrow.
  - rewrite Hcb. destruct (IH (State.log_notified callback a s)) as [Hr Hlog].
    split; [done|]. rewrite Hlog. simpl. by rewrite <- app_assoc.
Qed.

End Notification.

(** X11. Whatever the listeners do, an update makes one native query and
    no other native call, leaves the subscriptions as they are, only adds
    to the log of invocations, and leaves the cache in step with the
    extraction: [currentDisplayConfig] is the extracted configuration when
    the extraction resolved, also when a listener then throws, and is
    untouched when the extraction rejected. *)
Theorem update_keeps_cache_in_step_with_extraction
    (addon : Addon.t)
    (listener_body : Listener -> CallbackArgs.t -> option JsError)
    (s : State.t) :
  let final := (updateDisplayStateAndNotifyCallbacks addon listener_body s).2 in
  State.calls final = State.calls s ++ [Call_queryDisplayConfig]
  ∧ State.displayChangeCallbacks final = State.displayChangeCallbacks s
  ∧ State.currentDisplayConfig final
    = match (extractDisplayConfig addon s).1 with
      | Resolved config => Some config
      | Rejected _ => State.currentDisplayConfig s
      end
  ∧ State.notified s `prefix_of` State.notified final.
Proof.
  cbv zeta.
  unfold updateDisplayStateAndNotifyCallbacks, try_catch, mbind, Async_bind.
  pose proof (extractDisplayConfig_state addon s) as Hs.
  destruct (extractDisplayConfig addon s) as [[config|e] s1]; simpl in *;
    subst s1; unfold notify_callbacks; simpl.
  - pose proof (notify_frame listener_body (State.displayChangeCallbacks s)
                  {| CallbackArgs.err := None;
                     CallbackArgs.config := Some config |}
                  (State.set_currentDisplayConfig config
                     (State.log_call Call_queryDisplayConfig s)))
      as (Hcalls & Hcur & Hcbs & invoked & _ & Hlog).
    destruct (notify listener_body _ _ _) as [[[]|e] s2] eqn:Hrun; simpl in *.
    + split_and!; try done. rewrite Hlog. by apply prefix_app_r.
    + pose proof (notify_frame listener_body (State.displayChangeCallbacks s2)
                    {| CallbackArgs.err := Some e; CallbackArgs.config := None |}
                    s2)
        as (Hcalls' & Hcur' & Hcbs' & invoked' & _ & Hlog').
      rewrite Hcalls', Hcur', Hcbs', Hlog', Hcalls, Hcur, Hcbs, Hlog.
      split_and!; try done. rewrite <- app_assoc. by apply prefix_app_r.
  - pose proof (notify_frame listener_body (State.displayChangeCallbacks s)
                  {| CallbackArgs.err := Some e; CallbackArgs.config := None |}
                  (State.log_call Call_queryDisplayConfig s))
      as (Hcalls & Hcur & Hcbs & invoked & _ & Hlog).
    rewrite Hcalls, Hcur, Hcbs, Hlog. split_and!; try done.
    by apply prefix_app_r.
Qed.

(** X12. A listener that throws when it is handed the new configuration
    turns the success into an error for everybody: the listeners
    subscribed before it have received the configuration, those subscribed
    after it never receive it, and then all the listeners, the thrower
    first in line with the others, are handed the thrown value as an
    error.  When none of them throws on that, the update resolves; the
    configuration is in the cache all the same. *)
Theorem update_hands_thrown_value_to_every_listener
    (addon : Addon.t)
    (listener_body : Listener -> CallbackArgs.t -> option JsError)
    (s : State.t) (config : list Entry.t)
    (before after : list Listener) (thrower : Listener) (e : JsError) :
  (extractDisplayConfig addon s).1 = Resolved config ->
  State.displayChangeCallbacks s = before ++ thrower :: after ->
  Forall
    (fun callback =>
       listener_body callback
         {| CallbackArgs.err := None; CallbackArgs.config := Some config |}
       = None)
    before ->
  listener_body thrower
    {| CallbackArgs.err := None; CallbackArgs.config := Some config |}
  = Some e ->
  Forall
    (fun callback =>
       listener_body callback
         {| CallbackArgs.err := Some e; CallbackArgs.config := None |}
       = None)
    (before ++ thrower :: after) ->
  let final := (updateDisplayStateAndNotifyCallbacks addon listener_body s).2 in
  (updateDisplayStateAndNotifyCallbacks addon listener_body s).1 = Resolved tt
  ∧ State.currentDisplayConfig final = Some config
  ∧ State.notified final
    = State.notified s
      ++ ((fun callback =>
             (callback,
              {| CallbackArgs.err := None;
                 CallbackArgs.config := Some config |}))
            <$> before ++ [thrower])
      ++ ((fun callback =>
             (callback,
              {| CallbackArgs.err := Some e; CallbackArgs.config := None |}))
            <$> before ++ thrower :: after).
Proof.
  intros Hx Hcbs Hquiet Hthrow Herr. cbv zeta.
  unfold updateDisplayStateAndNotifyCallbacks, try_catch, mbind, Async_bind.
  pose proof (extractDisplayConfig_state addon s) as Hs.
  destruct (extractDisplayConfig addon s) as [r s1]. simpl in Hx, Hs.
  subst r s1.
  unfold assign_currentDisplayConfig, notify_callbacks. simpl.
  rewrite Hcbs.
  pose proof (notify_throw listener_body before thrower after _ e
                (State.set_currentDisplayConfig config
                   (State.log_call Call_queryDisplayConfig s))
                Hquiet Hthrow)
    as [Hr Hlog].
  pose proof (notify_frame listener_body (before ++ thrower :: after)
                {| CallbackArgs.err := None; CallbackArgs.config := Some config |}
                (State.set_currentDisplayConfig config
                   (State.log_call Call_queryDisplayConfig s)))
    as (_ & Hcur & Hsame & _).
  destruct (notify listener_body (before ++ thrower :: after) _ _)
    as [r s2]. simpl in *. subst r. rewrite Hsame.
  destruct (notify_all_return listener_body (before ++ thrower :: after)
              {| CallbackArgs.err := Some e; CallbackArgs.config := None |}
              s2 Herr)
    as (s3 & Hrun & _ & Hcur3 & _ & Hlog3).
  rewrite Hcbs, Hrun. simpl. rewrite Hcur3, Hcur, Hlog3, Hlog.
  by rewrite <- app_assoc.
Qed.

Lemma update_hands_thrown_value_to_every_listener_witness :
  (updateDisplayStateAndNotifyCallbacks (Sample.addon Sample.live_A_off)
     (Sample.picky_listener 7%nat) Sample.subscribed).1 = Resolved tt
  ∧ State.currentDisplayConfig
      (updateDisplayStateAndNotifyCallbacks (Sample.addon Sample.live_A_off)
         (Sample.picky_listener 7%nat) Sample.subscribed).2
    = Some [Sample.entryA false None]
  ∧ State.notified
      (updateDisplayStateAndNotifyCallbacks (Sample.addon Sample.live_A_off)
         (Sample.picky_listener 7%nat) Sample.subscribed).2
    = [(7%nat, {| CallbackArgs.err := None;
                  CallbackArgs.config := Some [Sample.entryA false None] |});
       (7%nat, {| CallbackArgs.err := Some (Thrown (JsString "boom"));
                  CallbackArgs.config := None |});
       (9%nat, {| CallbackArgs.err := Some (Thrown (JsString "boom"));
                  CallbackArgs.config := None |})].
Proof.
  apply (update_hands_thrown_value_to_every_listener
           (Sample.addon Sample.live_A_off) (Sample.picky_listener 7%nat)
           Sample.subscribed [Sample.entryA false None]
           [] [9%nat] 7%nat (Thrown (JsString "boom"))).
  - reflexivity.
  - reflexivity.
  - constructor.
  - reflexivity.
  - repeat constructor.
Defined.

(** ** Properties of the subscription functions *)

Lemma Set_add_elem listener (members : list Listener) l :
  l ∈ Set_add listener members <-> l = listener ∨ l ∈ members.
Proof.
  unfold Set_add. case_bool_decide.
  - split; [by right|]. by intros [->|].
  - rewrite elem_of_app, list_elem_of_singleton. tauto.
Qed.

Lemma Set_delete_elem listener (members : list Listener) l :
  l ∈ Set_delete listener members <-> l ≠ listener ∧ l ∈ members.
Proof. unfold Set_delete. by rewrite list_elem_of_filter. Qed.

Section Subscribing.

Variable addon : Addon.t.
Variable listener_body : Listener -> CallbackArgs.t -> option JsError.

Lemma update_subscriptions s :
  State.displayChangeCallbacks
    (updateDisplayStateAndNotifyCallbacks addon listener_body s).2
  = State.displayChangeCallbacks s.
Proof.
  unfold updateDisplayStateAndNotifyCallbacks, try_catch, mbind, Async_bind.
  pose proof (extractDisplayConfig_state addon s) as Hs.
  destruct (extractDisplayConfig addon s) as [[config|e] s1]; simpl in *;
    subst s1; unfold notify_callbacks; simpl.
  - pose proof (notify_frame listener_body (State.displayChangeCallbacks s)
                  {| CallbackArgs.err := None;
                     CallbackArgs.config := Some config |}
                  (State.set_currentDisplayConfig config
                     (State.log_call Call_queryDisplayConfig s)))
      as (_ & _ & Hcbs & _).
    destruct (notify listener_body _ _ _) as [[[]|e] s2]; simpl in *; [done|].
    pose proof (notify_frame listener_body (State.displayChangeCallbacks s2)
                  {| CallbackArgs.err := Some e; CallbackArgs.config := None |}
                  s2)
      as (_ & _ & Hcbs' & _).
    by rewrite Hcbs', Hcbs.
  - by pose proof (notify_frame listener_body (State.displayChangeCallbacks s)
                     {| CallbackArgs.err := Some e;
                        CallbackArgs.config := None |}
                     (State.log_call Call_queryDisplayConfig s))
      as (_ & _ & Hcbs & _).
Qed.

Lemma add_subscriptions listener session :
  State.displayChangeCallbacks
    (Session.state
       (addDisplayChangeListener listener_body listener session).2)
  = Set_add listener (State.displayChangeCallbacks (Session.state session)).
Proof.
  unfold addDisplayChangeListener.
  destruct (length _ =? 0)%nat; simpl;
    by destruct (State.currentDisplayConfig (Session.state session)).
Qed.

Lemma add_listening listener session :
  Session.listening (addDisplayChangeListener listener_body listener session).2
  = if (length (State.displayChangeCallbacks (Session.state session)) =? 0)%nat
    then Session.listening session ++ [Call_listenForDisplayChanges]
    else Session.listening session.
Proof.
  unfold addDisplayChangeListener.
  destruct (length _ =? 0)%nat; simpl;
    by destruct (State.currentDisplayConfig (Session.state session)).
Qed.

Lemma remove_subscriptions listener session :
  State.displayChangeCallbacks
    (Session.state (removeDisplayChangeListener listener session))
  = Set_delete listener (State.displayChangeCallbacks (Session.state session)).
Proof.
  unfold removeDisplayChangeListener. simpl.
  by destruct (length _ =? 0)%nat.
Qed.

Lemma remove_listening listener session :
  Session.listening (removeDisplayChangeListener listener session)
  = if (length (Set_delete listener
                  (State.displayChangeCallbacks (Session.state session)))
        =? 0)%nat
    then Session.listening session ++ [Call_stopListeningForDisplayChanges]
    else Session.listening session.
Proof.
  unfold removeDisplayChangeListener. simpl.
  by destruct (length _ =? 0)%nat.
Qed.

Lemma change_subscriptions err session :
  State.displayChangeCallbacks
    (Session.state (on_display_change addon listener_body err session))
  = State.displayChangeCallbacks (Session.state session)
  ∧ Session.listening (on_display_change addon listener_body err session)
    = Session.listening session.
Proof.
  unfold on_display_change. destruct err; [done|].
  destruct (Session.currentDisplayConfigPromise session); [|done].
  pose proof (update_subscriptions (Session.state session)) as Hcbs.
  by destruct (updateDisplayStateAndNotifyCallbacks _ _ _).
Qed.

Lemma handle_all_snoc evs ev session :
  handle_all addon listener_body (evs ++ [ev]) session
  = handle addon listener_body ev (handle_all addon listener_body evs session).
Proof. unfold handle_all. by rewrite fold_left_app. Qed.

(** What every event keeps true. *)
Lemma handle_keeps_invariant ev session :
  NoDup (State.displayChangeCallbacks (Session.state session))
  ∧ (State.displayChangeCallbacks (Session.state session) ≠ []
     <-> listening_active (Session.listening session)) ->
  NoDup (State.displayChangeCallbacks
           (Session.state (handle addon listener_body ev session)))
  ∧ (State.displayChangeCallbacks
       (Session.state (handle addon listener_body ev session)) ≠ []
     <-> listening_active
           (Session.listening (handle addon listener_body ev session))).
Proof.
  intros [Hnd Hact]. unfold listening_active in *.
  destruct ev as [listener|listener|err]; cbn [handle].
  - rewrite add_subscriptions, add_listening. split.
    + unfold Set_add. case_bool_decide; [done|].
      apply NoDup_app. split_and!; [done| |apply NoDup_singleton].
      intros x Hx ->%list_elem_of_singleton. done.
    + assert (Set_add listener
                (State.displayChangeCallbacks (Session.state session)) ≠ [])
        as Hne.
      { intros Hnil.
        assert (listener ∈ Set_add listener
                  (State.displayChangeCallbacks (Session.state session)))
          as Hin by (apply Set_add_elem; by left).
        rewrite Hnil in Hin. by apply elem_of_nil in Hin. }
      split; [|done]. intros _.
      destruct (State.displayChangeCallbacks (Session.state session))
        as [|x l] eqn:Hcbs; simpl.
      * apply last_snoc.
      * by apply Hact.
  - rewrite remove_subscriptions, remove_listening. split.
    + unfold Set_delete. by apply NoDup_filter.
    + destruct (Set_delete listener _) as [|x l] eqn:Hdel; simpl.
      * rewrite last_snoc. split; [done|]. by intros [=].
      * split; [|done]. intros _. apply Hact. intros Hnil.
        rewrite Hnil in Hdel. done.
  - destruct (change_subscriptions err session) as [-> ->]. done.
Qed.

End Subscribing.

(** Once [currentDisplayConfigPromise] is rejected, change pulses do
    nothing. *)
Lemma rejected_promise_ignores_changes
    (addon : Addon.t)
    (listener_body : Listener -> CallbackArgs.t -> option JsError)
    (session : Session.t) (e : JsError) (later : list (option Z)) :
  Session.currentDisplayConfigPromise session = Rejected e ->
  handle_all addon listener_body (DisplayChange <$> later) session = session.
Proof.
  intros Hrej. induction later as [|err later IH]; [done|].
  change (handle_all addon listener_body (DisplayChange <$> err :: later)
            session)
    with (handle_all addon listener_body (DisplayChange <$> later)
            (on_display_change addon listener_body err session)).
  assert (on_display_change addon listener_body err session = session) as ->;
    [|done].
  unfold on_display_change. rewrite Hrej. by destruct err.
Qed.

(** X13. A listener that throws when it is handed an error stops the
    change notifications for good.  When the update chained by a change
    pulse cannot extract and a subscribed listener throws on the error, the
    listeners subscribed after it are not told, the update rejects, and
    [currentDisplayConfigPromise] stays rejected: every later change
    pulse, with or without error, makes no query and invokes no listener;
    the session stays as it is. *)
Theorem listener_throwing_on_error_stops_the_chain
    (addon : Addon.t)
    (listener_body : Listener -> CallbackArgs.t -> option JsError)
    (session : Session.t) (e thrown : JsError)
    (before after : list Listener) (thrower : Listener)
    (later : list (option Z)) :
  Session.currentDisplayConfigPromise session = Resolved tt ->
  (extractDisplayConfig addon (Session.state session)).1 = Rejected e ->
  State.displayChangeCallbacks (Session.state session)
    = before ++ thrower :: after ->
  Forall
    (fun callback =>
       listener_body callback
         {| CallbackArgs.err := Some e; CallbackArgs.config := None |}
       = None)
    before ->
  listener_body thrower
    {| CallbackArgs.err := Some e; CallbackArgs.config := None |}
  = Some thrown ->
  let stopped := on_display_change addon listener_body None session in
  Session.currentDisplayConfigPromise stopped = Rejected thrown
  ∧ State.notified (Session.state stopped)
    = State.notified (Session.state session)
      ++ ((fun callback =>
             (callback,
              {| CallbackArgs.err := Some e; CallbackArgs.config := None |}))
            <$> before ++ [thrower])
  ∧ handle_all addon listener_body (DisplayChange <$> later) stopped = stopped.
Proof.
  intros Hp Hx Hcbs Hquiet Hthrow. cbv zeta.
  assert (Session.currentDisplayConfigPromise
            (on_display_change addon listener_body None session)
          = Rejected thrown
          ∧ State.notified
              (Session.state (on_display_change addon listener_body None session))
            = State.notified (Session.state session)
              ++ ((fun callback =>
                     (callback,
                      {| CallbackArgs.err := Some e;
                         CallbackArgs.config := None |}))
                    <$> before ++ [thrower])) as [Hrej Hlog].
  { unfold on_display_change. rewrite Hp.
    unfold updateDisplayStateAndNotifyCallbacks, try_catch, mbind, Async_bind.
    pose proof (extractDisplayConfig_state addon (Session.state session)) as Hs.
    destruct (extractDisplayConfig addon (Session.state session)) as [r s1].
    simpl in Hx, Hs. subst r s1. unfold notify_callbacks. simpl.
    rewrite Hcbs.
    pose proof (notify_throw listener_body before thrower after _ thrown
                  (State.log_call Call_queryDisplayConfig (Session.state session))
                  Hquiet Hthrow) as [Hr Hlog].
    destruct (notify listener_body (before ++ thrower :: after) _ _)
      as [r s2]. simpl in *. by subst r. }
  split_and!; [done|done|].
  by apply (rejected_promise_ignores_changes addon listener_body _ thrown).
Qed.

Lemma listener_throwing_on_error_stops_the_chain_witness :
  Session.currentDisplayConfigPromise
    (on_display_change (Sample.failing_addon 5) (SampleSession.grumpy_listener 7%nat)
       None SampleSession.session)
  = Rejected (Thrown (JsString "no"))
  ∧ State.notified
      (Session.state
         (on_display_change (Sample.failing_addon 5)
            (SampleSession.grumpy_listener 7%nat) None SampleSession.session))
    = [(7%nat, {| CallbackArgs.err := Some (Win32Error 5);
                  CallbackArgs.config := None |})]
  ∧ handle_all (Sample.failing_addon 5) (SampleSession.grumpy_listener 7%nat)
      (DisplayChange <$> [None; Some 31; None])
      (on_display_change (Sample.failing_addon 5)
         (SampleSession.grumpy_listener 7%nat) None SampleSession.session)
    = on_display_change (Sample.failing_addon 5) (SampleSession.grumpy_listener 7%nat)
        None SampleSession.session.
Proof.
  apply (listener_throwing_on_error_stops_the_chain
           (Sample.failing_addon 5) (SampleSession.grumpy_listener 7%nat)
           SampleSession.session (Win32Error 5) (Thrown (JsString "no"))
           [] [9%nat] 7%nat [None; Some 31; None]).
  - reflexivity.
  - reflexivity.
  - reflexivity.
  - constructor.
  - reflexivity.
Defined.

(** X14. From a module without listener and without registration call,
    after any sequence of listeners added and removed and of change
    pulses: no listener is subscribed twice, and the module is registered
    with the change notification of the addon (its last registration call
    is the one that starts listening) exactly when at least one listener is
    subscribed. *)
Theorem registered_exactly_when_subscribed
    (addon : Addon.t)
    (listener_body : Listener -> CallbackArgs.t -> option JsError)
    (session : Session.t) (evs : list Event) :
  State.displayChangeCallbacks (Session.state session) = [] ->
  Session.listening session = [] ->
  let final := handle_all addon listener_body evs session in
  NoDup (State.displayChangeCallbacks (Session.state final))
  ∧ (State.displayChangeCallbacks (Session.state final) ≠ []
     <-> listening_active (Session.listening final)).
Proof.
  intros Hcbs Hlog. cbv zeta.
  induction evs as [|ev evs IH] using rev_ind.
  - simpl. rewrite Hcbs, Hlog. split; [constructor|]. by split.
  - rewrite handle_all_snoc. by apply handle_keeps_invariant.
Qed.

Lemma registered_exactly_when_subscribed_witness :
  NoDup
    (State.displayChangeCallbacks
       (Session.state
          (handle_all (Sample.addon Sample.live_A) Sample.quiet_listener
             [AddListener 7%nat; AddListener 7%nat; DisplayChange None;
              RemoveListener 9%nat; RemoveListener 7%nat; AddListener 9%nat]
             SampleSession.fresh)))
  ∧ (State.displayChangeCallbacks
       (Session.state
          (handle_all (Sample.addon Sample.live_A) Sample.quiet_listener
             [AddListener 7%nat; AddListener 7%nat; DisplayChange None;
              RemoveListener 9%nat; RemoveListener 7%nat; AddListener 9%nat]
             SampleSession.fresh)) ≠ []
     <-> listening_active
           (Session.listening
              (handle_all (Sample.addon Sample.live_A) Sample.quiet_listener
                 [AddListener 7%nat; AddListener 7%nat; DisplayChange None;
                  RemoveListener 9%nat; RemoveListener 7%nat;
                  AddListener 9%nat]
                 SampleSession.fresh))).
Proof.
  apply (registered_exactly_when_subscribed (Sample.addon Sample.live_A)
           Sample.quiet_listener SampleSession.fresh
           [AddListener 7%nat; AddListener 7%nat; DisplayChange None;
            RemoveListener 9%nat; RemoveListener 7%nat; AddListener 9%nat]).
  - reflexivity.
  - reflexivity.
Defined.

(** X15. From a module without listener, after any sequence of events a
    listener is subscribed exactly when it was added and not removed
    since: the sequence has an [AddListener] of it that no
    [RemoveListener] of it follows.  Change pulses and the other listeners
    play no part. *)
Theorem subscribed_exactly_when_added_last
    (addon : Addon.t)
    (listener_body : Listener -> CallbackArgs.t -> option JsError)
    (session : Session.t) (evs : list Event) (listener : Listener) :
  State.displayChangeCallbacks (Session.state session) = [] ->
  listener
    ∈ State.displayChangeCallbacks
        (Session.state (handle_all addon listener_body evs session))
  <-> exists before after,
        evs = before ++ AddListener listener :: after
        ∧ RemoveListener listener ∉ after.
Proof.
  intros Hcbs. induction evs as [|ev evs IH] using rev_ind.
  - simpl. rewrite Hcbs. split; [by intros ?%elem_of_nil|].
    intros (before & after & Hevs & _). by destruct before.
  - rewrite handle_all_snoc.
    assert (listener
              ∈ State.displayChangeCallbacks
                  (Session.state
                     (handle addon listener_body ev
                        (handle_all addon listener_body evs session)))
            <-> ev = AddListener listener
                ∨ (ev ≠ RemoveListener listener
                   ∧ listener
                       ∈ State.displayChangeCallbacks
                           (Session.state
                              (handle_all addon listener_body evs session))))
      as ->.
    { destruct ev as [l|l|err]; cbn [handle].
      - rewrite add_subscriptions, Set_add_elem. split.
        + intros [->|Hin]; [by left|]. right. by split.
        + intros [[= ->]|[_ Hin]]; [by left|by right].
      - rewrite remove_subscriptions, Set_delete_elem. split.
        + intros [Hne Hin]. right. split; [|done]. by intros [= ->].
        + intros [|[Hne Hin]]; [done|]. split; [|done]. by intros ->.
      - destruct (change_subscriptions addon listener_body err
                    (handle_all addon listener_body evs session)) as [-> _].
        split; [intros Hin; by right|]. by intros [|[_ Hin]]. }
    rewrite IH. split.
    + intros [->|[Hne (before & after & -> & Hafter)]].
      * exists evs, []. split; [done|]. by intros ?%elem_of_nil.
      * exists before, (after ++ [ev]). split; [by rewrite <- app_assoc|].
        rewrite elem_of_app, list_elem_of_singleton. by intros [|].
    + intros (before & after & Hevs & Hafter).
      destruct after as [|last after _] using rev_ind.
      * apply app_inj_tail in Hevs as [_ ->]. by left.
      * rewrite app_comm_cons, app_assoc in Hevs.
        apply app_inj_tail in Hevs as [-> ->].
        rewrite elem_of_app, list_elem_of_singleton in Hafter.
        right. split; [by intros ->; apply Hafter; right|].
        exists before, after. split; [done|]. intros Hin. apply Hafter.
        by left.
Qed.

Lemma subscribed_exactly_when_added_last_witness :
  9%nat
    ∈ State.displayChangeCallbacks
        (Session.state
           (handle_all (Sample.addon Sample.live_A) Sample.quiet_listener
              [AddListener 9%nat; RemoveListener 9%nat; AddListener 9%nat;
               DisplayChange None; RemoveListener 7%nat]
              SampleSession.fresh))
  <-> exists before after,
        [AddListener 9%nat; RemoveListener 9%nat; AddListener 9%nat;
         DisplayChange None; RemoveListener 7%nat]
        = before ++ AddListener 9%nat :: after
        ∧ RemoveListener 9%nat ∉ after.
Proof.
  apply (subscribed_exactly_when_added_last (Sample.addon Sample.live_A)
           Sample.quiet_listener SampleSession.fresh
           [AddListener 9%nat; RemoveListener 9%nat; AddListener 9%nat;
            DisplayChange None; RemoveListener 7%nat]
           9%nat).
  reflexivity.
Defined.

Lemma with_callbacks_same (s : State.t) :
  with_callbacks (State.displayChangeCallbacks s) s = s.
Proof. by destruct s. Qed.

Lemma with_state_same (session : Session.t) :
  Session.with_state (Session.state session) session = session.
Proof. by destruct session. Qed.

Lemma Set_delete_absent (listener : Listener) (members : list Listener) :
  listener ∉ members -> Set_delete listener members = members.
Proof.
  unfold Set_delete. induction members as [|m members IH]; intros Hout; [done|].
  apply not_elem_of_cons in Hout as [Hne Hout].
  rewrite filter_cons. destruct (decide (m ≠ listener)) as [|Heq].
  - by rewrite IH.
  - destruct Heq. by intros ->.
Qed.

(** X16. Removing a listener that is not subscribed changes nothing while
    other listeners are subscribed.  When nobody is subscribed, it leaves
    the module state as it is and still calls the native
    [win32_stopListeningForDisplayChanges], whether or not listening was
    ever started. *)
Theorem remove_of_listener_not_subscribed
    (listener : Listener) (session : Session.t) :
  listener ∉ State.displayChangeCallbacks (Session.state session) ->
  Session.state (removeDisplayChangeListener listener session)
  = Session.state session
  ∧ (State.displayChangeCallbacks (Session.state session) ≠ [] ->
     removeDisplayChangeListener listener session = session)
  ∧ (State.displayChangeCallbacks (Session.state session) = [] ->
     Session.listening (removeDisplayChangeListener listener session)
     = Session.listening session ++ [Call_stopListeningForDisplayChanges]).
Proof.
  intros Hout. unfold removeDisplayChangeListener.
  rewrite (Set_delete_absent _ _ Hout), with_callbacks_same, with_state_same.
  destruct (State.displayChangeCallbacks (Session.state session)) as [|m l];
    simpl; split_and!; try done.
Qed.

Lemma remove_of_listener_not_subscribed_witness :
  Session.state (removeDisplayChangeListener 3%nat SampleSession.fresh)
  = Session.state SampleSession.fresh
  ∧ (State.displayChangeCallbacks (Session.state SampleSession.fresh) ≠ [] ->
     removeDisplayChangeListener 3%nat SampleSession.fresh = SampleSession.fresh)
  ∧ (State.displayChangeCallbacks (Session.state SampleSession.fresh) = [] ->
     Session.listening (removeDisplayChangeListener 3%nat SampleSession.fresh)
     = Session.listening SampleSession.fresh
       ++ [Call_stopListeningForDisplayChanges]).
Proof.
  apply (remove_of_listener_not_subscribed 3%nat SampleSession.fresh).
  simpl. apply not_elem_of_nil.
Defined.

(** X17. Adding a listener that is already subscribed neither subscribes
    it twice nor registers the module again; but when a configuration is
    cached the listener is invoked once more, at once, with
    [(null, currentDisplayConfig)], and what it throws reaches the caller.
    Without cached configuration the call changes nothing. *)
Theorem add_of_listener_already_subscribed
    (listener_body : Listener -> CallbackArgs.t -> option JsError)
    (listener : Listener) (session : Session.t) :
  listener ∈ State.displayChangeCallbacks (Session.state session) ->
  addDisplayChangeListener listener_body listener session
  = match State.currentDisplayConfig (Session.state session) with
    | Some config =>
      let a := {| CallbackArgs.err := None;
                  CallbackArgs.config := Some config |} in
      (match listener_body listener a with
       | None => Resolved tt
       | Some e => Rejected e
       end,
       Session.with_state
         (State.log_notified listener a (Session.state session)) session)
    | None => (Resolved tt, session)
    end.
Proof.
  intros Hin. unfold addDisplayChangeListener.
  assert ((length (State.displayChangeCallbacks (Session.state session)) =? 0)%nat
          = false) as ->.
  { destruct (State.displayChangeCallbacks (Session.state session));
      [by apply elem_of_nil in Hin|done]. }
  unfold Set_add. rewrite bool_decide_eq_true_2 by done.
  rewrite with_callbacks_same.
  destruct (State.currentDisplayConfig (Session.state session)); [done|].
  by rewrite with_state_same.
Qed.

Lemma add_of_listener_already_subscribed_witness :
  addDisplayChangeListener Sample.quiet_listener 9%nat SampleSession.session
  = (Resolved tt,
     Session.with_state
       (State.log_notified 9%nat
          {| CallbackArgs.err := None;
             CallbackArgs.config := Some [Sample.entryB] |}
          Sample.subscribed)
       SampleSession.session).
Proof.
  apply (add_of_listener_already_subscribed Sample.quiet_listener 9%nat
           SampleSession.session).
  simpl. constructor. constructor.
Defined.

(** X18. A listener that throws while it is handed the cached
    configuration on subscription is subscribed all the same: the
    exception reaches the caller of [addDisplayChangeListener] after the
    listener was put in the set, and after the module was registered with
    the addon when it was the first listener. *)
Theorem listener_throwing_on_subscription_stays_subscribed
    (listener_body : Listener -> CallbackArgs.t -> option JsError)
    (listener : Listener) (session : Session.t)
    (config : list Entry.t) (e : JsError) :
  State.currentDisplayConfig (Session.state session) = Some config ->
  listener_body listener
    {| CallbackArgs.err := None; CallbackArgs.config := Some config |}
  = Some e ->
  let after := (addDisplayChangeListener listener_body listener session).2 in
  (addDisplayChangeListener listener_body listener session).1 = Rejected e
  ∧ listener ∈ State.displayChangeCallbacks (Session.state after)
  ∧ (State.displayChangeCallbacks (Session.state session) = [] ->
     Session.listening after
     = Session.listening session ++ [Call_listenForDisplayChanges]).
Proof.
  intros Hcur Hthrow. cbv zeta. split_and!.
  - unfold addDisplayChangeListener.
    destruct (length _ =? 0)%nat; simpl; rewrite Hcur; simpl;
      by rewrite Hthrow.
  - rewrite add_subscriptions. apply Set_add_elem. by left.
  - intros Hnone. by rewrite add_listening, Hnone.
Qed.

Lemma listener_throwing_on_subscription_stays_subscribed_witness :
  (addDisplayChangeListener (Sample.picky_listener 3%nat) 3%nat
     SampleSession.cached).1
  = Rejected (Thrown (JsString "boom"))
  ∧ 3%nat
    ∈ State.displayChangeCallbacks
        (Session.state
           (addDisplayChangeListener (Sample.picky_listener 3%nat) 3%nat
              SampleSession.cached).2)
  ∧ (State.displayChangeCallbacks (Session.state SampleSession.cached) = [] ->
     Session.listening
       (addDisplayChangeListener (Sample.picky_listener 3%nat) 3%nat
          SampleSession.cached).2
     = Session.listening SampleSession.cached ++ [Call_listenForDisplayChanges]).
Proof.
  apply (listener_throwing_on_subscription_stays_subscribed
           (Sample.picky_listener 3%nat) 3%nat SampleSession.cached
           [Sample.entryB] (Thrown (JsString "boom"))).
  - reflexivity.
  - reflexivity.
Defined.
